(** * senzing-mapping-assistant: the three subcommands, embedded and verified

    The program is one Python script with three subcommands:
    [do_prepare] partitions a JSON Lines file into one text file per key,
    [do_train] loads a directory of text files and pickles it, and
    [do_test_phrase] unpickles that file, fits a scikit-learn pipeline on
    it and classifies one phrase.

    The script is embedded function by function.  Python exceptions are
    an error result, the file system and the log are an explicit state,
    and the routines of libraries the script imports ([json], [pickle],
    [sklearn]) are parameters of the sections that use them. *)

From Stdlib Require Import ZArith String Ascii List Lia DecimalString.
From stdpp Require Import gmap strings list fin_maps sorting.

Local Open Scope string_scope.
Local Open Scope list_scope.
Local Open Scope Z_scope.

(** ** Python values the script handles *)

(** The exceptions that can leave one of the [do_*] functions.
    [LibraryError] stands for anything raised inside a library routine that
    is a parameter of the model. *)
Inductive exception :=
| TypeError
| NameError
| AttributeError
| FileNotFoundError
| FileExistsError
| NotADirectoryError
| IsADirectoryError
| JSONDecodeError
| IndexError
| LibraryError (what : string).

Inductive outcome (A : Type) :=
| Ok (a : A)
| Raise (e : exception).
Arguments Ok {A} a.
Arguments Raise {A} e.

(** A value stored under a key of a JSON record.  Scalars are kept; a
    float or a nested list or object is kept as the text Python's [str]
    gives for it, which is all that [do_prepare] uses of a value. *)
Inductive value :=
| VNone
| VBool (b : bool)
| VInt (z : Z)
| VStr (s : string)
| VOther (text : string).

(** What [json.loads] returns for one line: a dict, with its items in
    insertion order, or some other JSON value. *)
Inductive parsed :=
| Dict (items : list (string * value))
| NonDict.

Definition newline : string := String "010"%char EmptyString.

(** ["{0}".format(value)] *)
Definition format_value (v : value) : string :=
  match v with
  | VNone => "None"
  | VBool true => "True"
  | VBool false => "False"
  | VInt z => DecimalString.NilZero.string_of_int (Z.to_int z)
  | VStr s => s
  | VOther text => text
  end.

(** [str.lower] on the characters A to Z. *)
Definition lower_ascii (c : ascii) : ascii :=
  let n := N_of_ascii c in
  if ((65 <=? n) && (n <=? 90))%N then ascii_of_N (n + 32) else c.

Fixpoint lower (s : string) : string :=
  match s with
  | EmptyString => EmptyString
  | String c s' => String (lower_ascii c) (lower s')
  end.

(** ** The state monad of the script

    A computation takes the state and returns an outcome together with the
    state it leaves behind, also when it raises: what was written before an
    exception stays written. *)
Module M.
Section Monad.
Context {St : Type}.

Definition t (A : Type) : Type := St -> outcome A * St.

Definition ret {A} (a : A) : t A := fun s => (Ok a, s).
Definition raise {A} (e : exception) : t A := fun s => (Raise e, s).
Definition bind {A B} (m : t A) (k : A -> t B) : t B :=
  fun s => match m s with
           | (Ok a, s') => k a s'
           | (Raise e, s') => (Raise e, s')
           end.
Definition get : t St := fun s => (Ok s, s).
Definition put (s : St) : t unit := fun _ => (Ok tt, s).
Definition lift {A} (o : outcome A) : t A := fun s => (o, s).

(** [for x in xs: body x], stopping at the first exception. *)
Fixpoint for_each {A} (xs : list A) (body : A -> t unit) : t unit :=
  match xs with
  | [] => ret tt
  | x :: rest => bind (body x) (fun _ => for_each rest body)
  end.
End Monad.
Arguments t : clear implicits.
End M.

Declare Scope py_scope.
Delimit Scope py_scope with py.
Notation "x <- m ;; k" := (M.bind m (fun x => k))
(at level 100, m at next level, right associativity) : py_scope.
Notation "m ;;; k" := (M.bind m (fun _ => k))
(at level 100, right associativity) : py_scope.

(** ** The file system

    A file system maps absolute paths, as lists of names from the root, to
    directories and regular files.  A path name is resolved against the
    working directory the way [os.path.normpath] reads it: empty and [.]
    components are dropped and [..] removes the component before it.  This
    is what the kernel does whenever the components before a [..] name
    existing directories; symbolic links are not modelled. *)
Module Fs.

Definition path := list string.

Inductive node :=
| Dir
| File (content : string).

Abbreviation t := (gmap path node).

Fixpoint split_from (sep : ascii) (cur : string) (s : string) : list string :=
  match s with
  | EmptyString => [cur]
  | String c s' =>
      if Ascii.eqb c sep then cur :: split_from sep EmptyString s'
      else split_from sep (cur +:+ String c EmptyString) s'
  end.

(** [s.split(sep)] for a one-character separator. *)
Definition split (sep : ascii) (s : string) : list string :=
  split_from sep EmptyString s.

Definition is_absolute (name : string) : bool :=
  match name with
  | String c _ => Ascii.eqb c "/"
  | EmptyString => false
  end.

Definition enter (p : path) (component : string) : path :=
  if String.eqb component "" then p
  else if String.eqb component "." then p
  else if String.eqb component ".." then removelast p
  else p ++ [component].

Definition resolve (cwd : path) (name : string) : path :=
  fold_left enter (split "/" name) (if is_absolute name then [] else cwd).

Fixpoint ends_with_slash (name : string) : bool :=
  match name with
  | EmptyString => false
  | String c EmptyString => Ascii.eqb c "/"
  | String _ s' => ends_with_slash s'
  end.

(** The proper prefixes of a path, shortest first: the directories the
    kernel walks through before it reaches the last component. *)
Fixpoint ancestors (p : path) : list path :=
  match p with
  | [] => []
  | c :: p' => [] :: map (cons c) (ancestors p')
  end.

(** Walking to the parent of [p]: every ancestor has to be a directory. *)
Fixpoint walk (fs : t) (dirs : list path) : outcome unit :=
  match dirs with
  | [] => Ok tt
  | d :: rest =>
      match fs !! d with
      | Some Dir => walk fs rest
      | Some (File _) => Raise NotADirectoryError
      | None => Raise FileNotFoundError
      end
  end.

Definition exists_ (fs : t) (p : path) : bool :=
  match fs !! p with
  | Some _ => true
  | None => false
  end.

Definition is_file (fs : t) (p : path) : bool :=
  match fs !! p with
  | Some (File _) => true
  | _ => false
  end.

Definition mkdir_all (fs : t) (ps : list path) : t :=
  fold_left (fun acc d => <[d := Dir]> acc) ps fs.

(** [os.makedirs(name)] with [exist_ok=False]: the leaf must not exist;
    missing intermediate directories are created; an ancestor that is a
    regular file makes the first [mkdir] fail before anything is created. *)
Definition makedirs (cwd : path) (name : string) (fs : t) : outcome unit * t :=
  let p := resolve cwd name in
  if exists_ fs p then (Raise FileExistsError, fs)
  else if existsb (is_file fs) (ancestors p) then (Raise NotADirectoryError, fs)
  else (Ok tt, mkdir_all fs (ancestors p ++ [p])).

(** [open(name, "w")]: the file is created, or truncated if it exists.
    The handle that is returned is the place of the file. *)
Definition open_w (cwd : path) (name : string) (fs : t) : outcome path * t :=
  let p := resolve cwd name in
  if String.eqb name "" then (Raise FileNotFoundError, fs)
  else
    match walk fs (ancestors p) with
    | Raise e => (Raise e, fs)
    | Ok _ =>
        match fs !! p with
        | Some Dir => (Raise IsADirectoryError, fs)
        | Some (File _) =>
            if ends_with_slash name then (Raise NotADirectoryError, fs)
            else (Ok p, <[p := File EmptyString]> fs)
        | None =>
            if ends_with_slash name then (Raise IsADirectoryError, fs)
            else (Ok p, <[p := File EmptyString]> fs)
        end
    end.

(** [f.write(text)] on a handle open for writing. *)
Definition fwrite (f : path) (text : string) (fs : t) : outcome unit * t :=
  match fs !! f with
  | Some (File content) => (Ok tt, <[f := File (content +:+ text)]> fs)
  | _ => (Ok tt, fs)
  end.

(** [open(name)] followed by reading the whole file. *)
Definition read_text (cwd : path) (name : string) (fs : t) : outcome string :=
  let p := resolve cwd name in
  if String.eqb name "" then Raise FileNotFoundError
  else
    match walk fs (ancestors p) with
    | Raise e => Raise e
    | Ok _ =>
        match fs !! p with
        | Some Dir => Raise IsADirectoryError
        | Some (File content) =>
            if ends_with_slash name then Raise NotADirectoryError
            else Ok content
        | None => Raise FileNotFoundError
        end
    end.

(** The lines a text file iterates over.  The file is open in text mode
    with universal newlines: a line ends at a line feed, at a carriage
    return followed by a line feed, or at a carriage return alone, and
    in each case the line that is handed out ends with a line feed; the
    last line may have no end. *)
Fixpoint lines_from (cur : string) (s : string) : list string :=
  match s with
  | EmptyString => if String.eqb cur "" then [] else [cur]
  | String c s' =>
      if Ascii.eqb c "010" then (cur +:+ newline) :: lines_from EmptyString s'
      else if Ascii.eqb c "013" then
        match s' with
        | EmptyString => [cur +:+ newline]
        | String c' s'' =>
            if Ascii.eqb c' "010" then (cur +:+ newline) :: lines_from EmptyString s''
            else (cur +:+ newline) :: lines_from EmptyString s'
        end
      else lines_from (cur +:+ String c EmptyString) s'
  end.

Definition lines (content : string) : list string := lines_from EmptyString content.

(** [q] is an entry of directory [p]: its name. *)
Fixpoint entry_name (p q : path) : option string :=
  match p, q with
  | [], [name] => Some name
  | c :: p', d :: q' => if String.eqb c d then entry_name p' q' else None
  | _, _ => None
  end.

(** [sorted(os.listdir(name))] *)
Definition sorted_listdir (cwd : path) (name : string) (fs : t) : outcome (list string) :=
  let p := resolve cwd name in
  if String.eqb name "" then Raise FileNotFoundError
  else
    match walk fs (ancestors p) with
    | Raise e => Raise e
    | Ok _ =>
        match fs !! p with
        | Some Dir =>
            Ok (merge_sort String.le (omap (fun e => entry_name p (fst e)) (map_to_list fs)))
        | Some (File _) => Raise NotADirectoryError
        | None => Raise FileNotFoundError
        end
    end.

(** [os.path.isdir(name)] *)
Definition isdir (cwd : path) (name : string) (fs : t) : bool :=
  match walk fs (ancestors (resolve cwd name)), fs !! resolve cwd name with
  | Ok _, Some Dir => negb (String.eqb name "")
  | _, _ => false
  end.

(** [os.path.join(a, b)] *)
Definition join (a b : string) : string :=
  if is_absolute b then b
  else if String.eqb a "" || ends_with_slash a then a +:+ b
  else a +:+ "/" +:+ b.

End Fs.

(** ** Configuration *)

(** What the process gets from its surroundings: the working directory,
    the environment variables, and whether [get_ini_filename] finds a
    [slice-algorithm.ini] in one of the places it looks. *)
Record process := {
  cwd : Fs.path;
  environ : gmap string string;
  ini_file_found : bool
}.

(** The [argparse] namespace.  An option that was not given, or that the
    chosen subcommand does not have, is [None]. *)
Record Namespace := {
  arg_input_directory : option string;
  arg_jsonlines_file : option string;
  arg_model_file : option string;
  arg_output_directory : option string;
  arg_test_phrase : option string
}.

(** The configuration dictionary, restricted to the five keys of
    [configuration_locator].  Three of them have a string as default and
    are only ever replaced by non-empty strings; the other two default to
    [None]. *)
Record config := {
  input_directory : string;
  jsonlines_file : option string;
  model_file : string;
  output_directory : string;
  test_phrase : option string
}.

Definition configuration_defaults : config := {|
  input_directory := "senzing-mapping-assistant-prepare";
  jsonlines_file := None;
  model_file := "model.pickle";
  output_directory := "senzing-mapping-assistant-prepare";
  test_phrase := None
|}.

(** [if value:] on a value that is [None] or a string. *)
Definition truthy (value : option string) : bool :=
  match value with
  | None => false
  | Some s => negb (String.eqb s "")
  end.

(** [if value: result[key] = value] for a key whose current value is a string. *)
Definition assign (current : string) (value : option string) : string :=
  match value with
  | Some s => if truthy value then s else current
  | None => current
  end.

(** The same for a key whose current value may be [None]. *)
Definition assign_opt (current : option string) (value : option string) : option string :=
  if truthy value then value else current.

Definition copy_args (args : Namespace) (result : config) : config := {|
  input_directory := assign (input_directory result) (arg_input_directory args);
  jsonlines_file := assign_opt (jsonlines_file result) (arg_jsonlines_file args);
  model_file := assign (model_file result) (arg_model_file args);
  output_directory := assign (output_directory result) (arg_output_directory args);
  test_phrase := assign_opt (test_phrase result) (arg_test_phrase args)
|}.

Definition copy_environ (env : gmap string string) (result : config) : config := {|
  input_directory := assign (input_directory result) (env !! "SENZING_INPUT_DIRECTORY");
  jsonlines_file := assign_opt (jsonlines_file result) (env !! "SENZING_JSONLINES_FILE");
  model_file := assign (model_file result) (env !! "SENZING_MODEL_FILE");
  output_directory := assign (output_directory result) (env !! "SENZING_OUTPUT_DIRECTORY");
  test_phrase := assign_opt (test_phrase result) (env !! "SENZING_TEST_PHRASE")
|}.

(** [get_configuration]: defaults, then the command line, then the INI
    file, then the environment, then the command line again.  No entry of
    [configuration_locator] has an [ini] key, so an INI file contributes no
    value; but the script never imports [configparser], so finding one
    raises [NameError]. *)
Definition get_configuration (proc : process) (args : Namespace) : outcome config :=
  let result := configuration_defaults in
  let result := copy_args args result in
  if ini_file_found proc then Raise NameError
  else
    let result := copy_environ (environ proc) result in
    let result := copy_args args result in
    Ok result.

(** ** The state the subcommands act on *)

(** The [Bunch] that [sklearn.datasets.load_files] returns: the content of
    every document, the file it came from, the category names, and for
    each document the index of its category. *)
Record bunch := {
  data : list string;
  filenames : list string;
  target_names : list string;
  target : list nat
}.

(** The calls into [pickle] and [sklearn] that a subcommand makes, in the
    order it makes them, with the arguments that are plain data. *)
Inductive call :=
| load_files_call (container_path : string)
| pickle_dump_call (obj : bunch) (file : string)
| pickle_load_call (file : string)
| CountVectorizer_fit_transform_call (raw_documents : list string)
| TfidfTransformer_fit_transform_call
| MultinomialNB_fit_call (y : list nat)
| CountVectorizer_transform_call (raw_documents : list (option string))
| TfidfTransformer_transform_call
| MultinomialNB_predict_call.

Inductive log_record :=
| Enter (c : config)
| Exit (c : config)
| Message (text : string).

Record world := {
  fs : Fs.t;
  log : list log_record;
  calls : list call
}.

Definition logging_info (r : log_record) : M.t world unit :=
  fun w => (Ok tt, {| fs := fs w; log := log w ++ [r]; calls := calls w |}).

(** Recording a library call. *)
Definition calling (c : call) : M.t world unit :=
  fun w => (Ok tt, {| fs := fs w; log := log w; calls := calls w ++ [c] |}).

(** Lifting a file-system operation to the world. *)
Definition on_fs {A} (op : Fs.t -> outcome A * Fs.t) : M.t world A :=
  fun w => let (r, fs') := op (fs w) in
           (r, {| fs := fs'; log := log w; calls := calls w |}).

(** [validate_configuration] collects no message, so [common_prolog] only
    logs the entry line. *)
Definition common_prolog (c : config) : M.t world unit :=
  logging_info (Enter c).

(** ** prepare *)

(** How a generator ended: by returning or by an exception. *)
Inductive finish :=
| Exhausted
| Threw (e : exception).

(** [key_values], a dict of lists in insertion order:
    [if key not in key_values.keys(): key_values[key] = []] and then
    [key_values[key].append(value)]. *)
Fixpoint append_value (key : string) (v : value) (key_values : list (string * list value))
  : list (string * list value) :=
  match key_values with
  | [] => [(key, [v])]
  | (k, vs) :: rest =>
      if String.eqb k key then (k, vs ++ [v]) :: rest
      else (k, vs) :: append_value key v rest
  end.

Definition add_items (key_values : list (string * list value)) (items : list (string * value))
  : list (string * list value) :=
  fold_left (fun kvs kv => append_value (fst kv) (snd kv) kvs) items key_values.

(** The loop over the yielded dictionaries.  Something that is not a dict
    has no [items]. *)
Fixpoint collect (dictionaries : list parsed) (key_values : list (string * list value))
  : outcome (list (string * list value)) :=
  match dictionaries with
  | [] => Ok key_values
  | Dict items :: rest => collect rest (add_items key_values items)
  | NonDict :: _ => Raise AttributeError
  end.

Definition directory_of (output_directory key : string) : string :=
  output_directory +:+ "/" +:+ lower key.

Definition filename_of (output_directory key : string) : string :=
  directory_of output_directory key +:+ "/" +:+ key +:+ ".txt".

(** One turn of the loop that writes the output files. *)
Definition write_key (proc : process) (output_directory : string)
  (kv : string * list value) : M.t world unit :=
  (on_fs (Fs.makedirs (cwd proc) (directory_of output_directory (fst kv))) ;;;
   output_file <- on_fs (Fs.open_w (cwd proc) (filename_of output_directory (fst kv))) ;;
   M.for_each (snd kv) (fun v =>
     on_fs (Fs.fwrite output_file (format_value v +:+ newline))))%py.

Section Prepare.

(** [json.loads] on one line: what it returns, or the exception it
    raises. *)
Variable json_loads : string -> outcome parsed.

(** The body of the generator function, after the file is open: what it
    yields and how it ends. *)
Fixpoint result_function (max_lines counter : Z) (jsonlines_file : list string)
  : list parsed * finish :=
  match jsonlines_file with
  | [] => ([], Exhausted)
  | line :: rest =>
      let counter := counter + 1 in
      if negb (max_lines =? 0) && (counter <=? max_lines) then
        match json_loads line with
        | Ok d =>
            let (ds, fin) := result_function max_lines counter rest in
            (d :: ds, fin)
        | Raise e => ([], Threw e)
        end
      else ([], Exhausted)
  end.

(** Running the generator that [get_generator_from_jsonlines] builds.
    [open(None)] raises [TypeError]. *)
Definition get_generator_from_jsonlines (jsonlines_filename : option string)
  (max_lines : Z) (proc : process) (files : Fs.t) : list parsed * finish :=
  match jsonlines_filename with
  | None => ([], Threw TypeError)
  | Some name =>
      match Fs.read_text (cwd proc) name files with
      | Raise e => ([], Threw e)
      | Ok content => result_function max_lines 0 (Fs.lines content)
      end
  end.

(** [for dictionary in dictionaries(): ...]: the body runs on each yielded
    dictionary in turn; an exception of the generator surfaces after the
    dictionaries yielded before it have been processed. *)
Definition build_key_values (run : list parsed * finish)
  : outcome (list (string * list value)) :=
  match collect (fst run) [] with
  | Raise e => Raise e
  | Ok key_values =>
      match snd run with
      | Exhausted => Ok key_values
      | Threw e => Raise e
      end
  end.

Definition do_prepare (proc : process) (args : Namespace) : M.t world unit :=
  (config <- M.lift (get_configuration proc args) ;;
   common_prolog config ;;;
   w <- M.get ;;
   let dictionaries :=
     get_generator_from_jsonlines (jsonlines_file config) 10000 proc (fs w) in
   key_values <- M.lift (build_key_values dictionaries) ;;
   M.for_each key_values (write_key proc (output_directory config)) ;;;
   logging_info (Exit config))%py.

End Prepare.

(** ** train *)

Definition obind {A B} (o : outcome A) (k : A -> outcome B) : outcome B :=
  match o with
  | Ok a => k a
  | Raise e => Raise e
  end.

Fixpoint omapM {A B} (f : A -> outcome B) (xs : list A) : outcome (list B) :=
  match xs with
  | [] => Ok []
  | x :: rest => obind (f x) (fun y => obind (omapM f rest) (fun ys => Ok (y :: ys)))
  end.

(** [xs[indices]] on an array. *)
Definition take_indices {A} (indices : list nat) (xs : list A) : list A :=
  omap (fun i => xs !! i) indices.

Section Train.

(** [shuffle n] is the order in which [RandomState(0).shuffle] leaves
    [arange(n)]. *)
Variable shuffle : nat -> list nat.

(** [pickle.dumps] on the data set. *)
Variable pickle_dumps : bunch -> string.

(** The loop of [load_files] over the category folders: the documents of
    each, in sorted order, with the index of the folder as their label. *)
Fixpoint scan_folders (proc : process) (files : Fs.t) (container_path : string)
  (label : nat) (folders : list string) : outcome (list string * list nat) :=
  match folders with
  | [] => Ok ([], [])
  | folder :: rest =>
      let folder_path := Fs.join container_path folder in
      obind (Fs.sorted_listdir (cwd proc) folder_path files) (fun names =>
      obind (scan_folders proc files container_path (S label) rest) (fun more =>
      Ok (map (Fs.join folder_path) names ++ fst more,
          replicate (length names) label ++ snd more)))
  end.

(** [sklearn.datasets.load_files(container_path)] with its defaults: every
    subdirectory is a category, every entry of it a document; documents
    and labels are shuffled together and the documents read as bytes. *)
Definition load_files (proc : process) (files : Fs.t) (container_path : string)
  : outcome bunch :=
  obind (Fs.sorted_listdir (cwd proc) container_path files) (fun names =>
  let folders :=
    List.filter (fun f => Fs.isdir (cwd proc) (Fs.join container_path f) files) names in
  obind (scan_folders proc files container_path 0 folders) (fun found =>
  let indices := shuffle (length (fst found)) in
  let filenames := take_indices indices (fst found) in
  let target := take_indices indices (snd found) in
  obind (omapM (fun name => Fs.read_text (cwd proc) name files) filenames) (fun data =>
  Ok {| data := data; filenames := filenames;
        target_names := folders; target := target |}))).

Definition do_train (proc : process) (args : Namespace) : M.t world unit :=
  (config <- M.lift (get_configuration proc args) ;;
   common_prolog config ;;;
   calling (load_files_call (input_directory config)) ;;;
   w <- M.get ;;
   model <- M.lift (load_files proc (fs w) (input_directory config)) ;;
   model_out <- on_fs (Fs.open_w (cwd proc) (model_file config)) ;;
   calling (pickle_dump_call model (model_file config)) ;;;
   on_fs (Fs.fwrite model_out (pickle_dumps model)) ;;;
   logging_info (Exit config))%py.

End Train.

(** ** test-phrase *)

(** [str(x)] for the phrase, which is a string or [None]. *)
Definition format_phrase (sample : option string) : string :=
  match sample with
  | Some s => s
  | None => "None"
  end.

(** [message_info(103, sample, category)] *)
Definition message_info_103 (sample : option string) (category : string) : string :=
  "senzing-99990103I" +:+ " " +:+
  "Phrase: '" +:+ format_phrase sample +:+ "' Category: '" +:+ category +:+ "'".

(** An object rebuilt by [pickle.load], as far as the subcommand looks
    at it: the three attributes it reads, each present or not. *)
Record pyobject := {
  attr_data : option (list string);
  attr_target : option (list nat);
  attr_target_names : option (list string)
}.

(** The object that unpickling a pickled data set gives back. *)
Definition object_of_bunch (b : bunch) : pyobject := {|
  attr_data := Some (data b);
  attr_target := Some (target b);
  attr_target_names := Some (target_names b)
|}.

(** Reading an attribute; a missing one raises [AttributeError]. *)
Definition getattr {A} (attribute : option A) : outcome A :=
  match attribute with
  | Some a => Ok a
  | None => Raise AttributeError
  end.

Section TestPhrase.

(** [pickle.loads] on the content of the model file. *)
Variable pickle_loads : string -> outcome pyobject.

(** The fitted objects and the matrices of scikit-learn. *)
Variables vectorizer transformer classifier counts tfidf : Type.

Variable CountVectorizer_fit_transform : list string -> outcome (vectorizer * counts).
Variable TfidfTransformer_fit_transform : counts -> outcome (transformer * tfidf).
Variable MultinomialNB_fit : tfidf -> list nat -> outcome classifier.
Variable CountVectorizer_transform : vectorizer -> list (option string) -> outcome counts.
Variable TfidfTransformer_transform : transformer -> counts -> outcome tfidf.
Variable MultinomialNB_predict : classifier -> tfidf -> outcome (list nat).

(** [training_set.target_names[prediction]] *)
Definition category_of (training_set : pyobject) (prediction : nat) : outcome string :=
  obind (getattr (attr_target_names training_set)) (fun names =>
  match names !! prediction with
  | Some name => Ok name
  | None => Raise IndexError
  end).

(** [for sample, prediction in zip(samples, predictions): logging.info(...)] *)
Fixpoint report (training_set : pyobject) (samples : list (option string))
  (predictions : list nat) : M.t world unit :=
  match samples, predictions with
  | sample :: samples', prediction :: predictions' =>
      (name <- M.lift (category_of training_set prediction) ;;
       logging_info (Message (message_info_103 sample name)) ;;;
       report training_set samples' predictions')%py
  | _, _ => M.ret tt
  end.

Definition do_test_phrase (proc : process) (args : Namespace) : M.t world unit :=
  (config <- M.lift (get_configuration proc args) ;;
   common_prolog config ;;;
   w <- M.get ;;
   content <- M.lift (Fs.read_text (cwd proc) (model_file config) (fs w)) ;;
   calling (pickle_load_call (model_file config)) ;;;
   training_set <- M.lift (pickle_loads content) ;;
   training_data <- M.lift (getattr (attr_data training_set)) ;;
   calling (CountVectorizer_fit_transform_call training_data) ;;;
   fitted <- M.lift (CountVectorizer_fit_transform training_data) ;;
   let count_vect := fst fitted in
   let training_counts := snd fitted in
   calling TfidfTransformer_fit_transform_call ;;;
   fitted <- M.lift (TfidfTransformer_fit_transform training_counts) ;;
   let tfidf_transformer := fst fitted in
   let training_tfidf := snd fitted in
   training_target <- M.lift (getattr (attr_target training_set)) ;;
   calling (MultinomialNB_fit_call training_target) ;;;
   clf <- M.lift (MultinomialNB_fit training_tfidf training_target) ;;
   let samples := [test_phrase config] in
   calling (CountVectorizer_transform_call samples) ;;;
   sample_counts <- M.lift (CountVectorizer_transform count_vect samples) ;;
   calling TfidfTransformer_transform_call ;;;
   sample_tfidf <- M.lift (TfidfTransformer_transform tfidf_transformer sample_counts) ;;
   calling MultinomialNB_predict_call ;;;
   predictions <- M.lift (MultinomialNB_predict clf sample_tfidf) ;;
   report training_set samples predictions ;;;
   logging_info (Exit config))%py.

End TestPhrase.

Arguments do_test_phrase pickle_loads {vectorizer transformer classifier counts tfidf}.

(** ** Finding the INI file *)

(** [os.path.isfile] on an absolute, normalised path. *)
Definition isfile (files : Fs.t) (p : Fs.path) : bool :=
  match Fs.walk files (Fs.ancestors p), files !! p with
  | Ok _, Some (Fs.File _) => true
  | _, _ => false
  end.

(** The places where [get_ini_filename] looks, in its order: the working
    directory, the directory of the script, the directory of [sys.argv[0]],
    [/etc] and [/opt/senzing/g2/python]. *)
Definition ini_filenames (cwd script_directory argv0_directory : Fs.path) : list Fs.path :=
  [cwd ++ ["slice-algorithm.ini"];
   script_directory ++ ["slice-algorithm.ini"];
   argv0_directory ++ ["slice-algorithm.ini"];
   ["etc"; "slice-algorithm.ini"];
   ["opt"; "senzing"; "g2"; "python"; "slice-algorithm.ini"]].

(** [get_ini_filename]: the first of them that is a regular file. *)
Definition get_ini_filename (cwd script_directory argv0_directory : Fs.path)
  (files : Fs.t) : option Fs.path :=
  List.find (isfile files) (ini_filenames cwd script_directory argv0_directory).

(** ** Messages *)

(** What the script passes to [message] and its relatives: message
    numbers, strings, and the phrase, which may be [None]. *)
Inductive argument :=
| AInt (z : Z)
| AStr (s : string)
| ANone.

(** [str(x)] *)
Definition str (a : argument) : string :=
  match a with
  | AInt z => DecimalString.NilZero.string_of_int (Z.to_int z)
  | AStr s => s
  | ANone => "None"
  end.

Fixpoint zeros (n : nat) : string :=
  match n with
  | O => EmptyString
  | S n' => String "0" (zeros n')
  end.

(** [format(z, "04d")]: at least four characters, the sign first, then
    zeros, then the digits. *)
Definition format_04d (z : Z) : string :=
  let digits := DecimalString.NilZero.string_of_int (Z.to_int (Z.abs z)) in
  if z <? 0 then "-" +:+ zeros (3 - String.length digits) +:+ digits
  else zeros (4 - String.length digits) +:+ digits.

Definition is_digit (c : ascii) : bool :=
  ((48 <=? N_of_ascii c) && (N_of_ascii c <=? 57))%N.

(** The index a field names: [int(digits)]. *)
Fixpoint index_of (digits : string) (n : nat) : nat :=
  match digits with
  | EmptyString => n
  | String c rest => index_of rest (10 * n + N.to_nat (N_of_ascii c - 48))
  end.

(** Where the scan of a format string is. *)
Inductive place :=
| InText
| AfterOpen
| AfterClose
| InIndex (digits : string)
| InSpec (digits spec : string).

(** One replacement field [{index}] or [{index:spec}].  The format
    specifications rendered are the empty one and [04d]. *)
Definition replacement (args : list argument) (digits spec : string) : outcome string :=
  match args !! index_of digits 0 with
  | None => Raise IndexError
  | Some a =>
      if String.eqb spec "" then Ok (str a)
      else if String.eqb spec "04d" then
        match a with
        | AInt z => Ok (format_04d z)
        | AStr _ => Raise (LibraryError "ValueError")
        | ANone => Raise TypeError
        end
      else Raise (LibraryError "format specification")
  end.

(** [template.format] on the arguments, for templates whose replacement
    fields are numbered: [{{] and [}}] stand for a brace, a lone [}] is an
    error, and so is a field that is not closed.  A field without a
    number, with a name, a conversion or a nested field is outside what
    is rendered here. *)
Fixpoint format_from (template : string) (at_ : place) (args : list argument)
  (done : string) : outcome string :=
  match template with
  | EmptyString =>
      match at_ with
      | InText => Ok done
      | _ => Raise (LibraryError "ValueError")
      end
  | String c rest =>
      match at_ with
      | InText =>
          if Ascii.eqb c "{" then format_from rest AfterOpen args done
          else if Ascii.eqb c "}" then format_from rest AfterClose args done
          else format_from rest InText args (done +:+ String c EmptyString)
      | AfterOpen =>
          if Ascii.eqb c "{" then format_from rest InText args (done +:+ "{")
          else if is_digit c then format_from rest (InIndex (String c EmptyString)) args done
          else Raise (LibraryError "replacement field")
      | AfterClose =>
          if Ascii.eqb c "}" then format_from rest InText args (done +:+ "}")
          else Raise (LibraryError "ValueError")
      | InIndex digits =>
          if is_digit c then
            format_from rest (InIndex (digits +:+ String c EmptyString)) args done
          else if Ascii.eqb c "}" then
            match replacement args digits "" with
            | Ok text => format_from rest InText args (done +:+ text)
            | Raise e => Raise e
            end
          else if Ascii.eqb c ":" then format_from rest (InSpec digits EmptyString) args done
          else Raise (LibraryError "replacement field")
      | InSpec digits spec =>
          if Ascii.eqb c "}" then
            match replacement args digits spec with
            | Ok text => format_from rest InText args (done +:+ text)
            | Raise e => Raise e
            end
          else if Ascii.eqb c "{" then Raise (LibraryError "replacement field")
          else format_from rest (InSpec digits (spec +:+ String c EmptyString)) args done
      end
  end.

Definition format (template : string) (args : list argument) : outcome string :=
  format_from template InText args EmptyString.

Definition SENZING_PRODUCT_ID : string := "9999".

Definition message_dictionary : list (string * string) :=
  [("100", "senzing-" +:+ SENZING_PRODUCT_ID +:+ "{0:04d}I");
   ("101", "Enter {0}");
   ("102", "Exit {0}");
   ("103", "Phrase: '{0}' Category: '{1}'");
   ("199", "{0}");
   ("200", "senzing-" +:+ SENZING_PRODUCT_ID +:+ "{0:04d}W");
   ("400", "senzing-" +:+ SENZING_PRODUCT_ID +:+ "{0:04d}E");
   ("498", "Bad SENZING_SUBCOMMAND: {0}.");
   ("499", "No processing done.");
   ("500", "senzing-" +:+ SENZING_PRODUCT_ID +:+ "{0:04d}E");
   ("501", "Error: {0} for {1}");
   ("599", "Program terminated with error.");
   ("900", "senzing-" +:+ SENZING_PRODUCT_ID +:+ "{0:04d}D");
   ("999", "{0}")].

(** [dictionary.get(key)] *)
Fixpoint dict_get (dictionary : list (string * string)) (key : string) : option string :=
  match dictionary with
  | [] => None
  | (k, v) :: rest => if String.eqb k key then Some v else dict_get rest key
  end.

(** [message]: the default of [get] is formatted before
    the look-up, and whatever comes out of the look-up is formatted with
    the arguments. *)
Definition message (index : Z) (args : list argument) : outcome string :=
  let index_string := str (AInt index) in
  obind (format "No message for index {0}." [AStr index_string]) (fun default =>
  let template :=
    match dict_get message_dictionary index_string with
    | Some template => template
    | None => default
    end in
  format template args).

Definition message_generic (generic_index index : Z) (args : list argument)
  : outcome string :=
  obind (message generic_index [AInt index]) (fun first =>
  obind (message index args) (fun second =>
  format "{0} {1}" [AStr first; AStr second])).

Definition message_info (index : Z) (args : list argument) : outcome string :=
  message_generic 100 index args.

Definition message_warn (index : Z) (args : list argument) : outcome string :=
  message_generic 200 index args.

Definition message_error (index : Z) (args : list argument) : outcome string :=
  message_generic 500 index args.

Definition message_debug (index : Z) (args : list argument) : outcome string :=
  message_generic 900 index args.

(** The phrase as an argument of [message_info]. *)
Definition argument_of (sample : option string) : argument :=
  match sample with
  | Some s => AStr s
  | None => ANone
  end.

(** ** The main block *)

(** [s.replace('-', '_')] *)
Fixpoint replace_dash (s : string) : string :=
  match s with
  | EmptyString => EmptyString
  | String c s' => String (if Ascii.eqb c "-" then "_"%char else c) (replace_dash s')
  end.

(** What [parser.parse_args()] does with the command line: it returns a
    namespace, whose [subcommand] may be [None], or it leaves the program
    through [sys.exit]. *)
Inductive parse_result :=
| Parsed (subcommand : option string) (args : Namespace)
| ParserExit (status : Z).

(** How the program ends. *)
Inductive ending :=
| Returned
| SystemExit (status : Z)
| Raised (e : exception).

Record program_run := {
  ending_of : ending;
  help_printed : bool;
  world_of : world
}.

(** [argparse.Namespace(subcommand=subcommand)]: no option is set. *)
Definition empty_namespace : Namespace := {|
  arg_input_directory := None;
  arg_jsonlines_file := None;
  arg_model_file := None;
  arg_output_directory := None;
  arg_test_phrase := None
|}.

(** A run that ends with the subcommand function. *)
Definition finished (r : outcome unit * world) : program_run :=
  {| ending_of := match fst r with Ok _ => Returned | Raise e => Raised e end;
     help_printed := false;
     world_of := snd r |}.

Section Main.
Variable json_loads : string -> outcome parsed.
Variable shuffle : nat -> list nat.
Variable pickle_dumps : bunch -> string.
Variable pickle_loads : string -> outcome pyobject.
Variables vectorizer transformer classifier counts tfidf : Type.
Variable CountVectorizer_fit_transform : list string -> outcome (vectorizer * counts).
Variable TfidfTransformer_fit_transform : counts -> outcome (transformer * tfidf).
Variable MultinomialNB_fit : tfidf -> list nat -> outcome classifier.
Variable CountVectorizer_transform : vectorizer -> list (option string) -> outcome counts.
Variable TfidfTransformer_transform : transformer -> counts -> outcome tfidf.
Variable MultinomialNB_predict : classifier -> tfidf -> outcome (list nat).
Variable parse_args : list string -> parse_result.

(** [globals()] at a name that starts with [do_]: the three functions
    of the script that have such a name. *)
Definition do_function (name : string) : option (process -> Namespace -> M.t world unit) :=
  if String.eqb name "do_prepare" then Some (do_prepare json_loads)
  else if String.eqb name "do_train" then Some (do_train shuffle pickle_dumps)
  else if String.eqb name "do_test_phrase" then
    Some (do_test_phrase pickle_loads CountVectorizer_fit_transform
            TfidfTransformer_fit_transform MultinomialNB_fit CountVectorizer_transform
            TfidfTransformer_transform MultinomialNB_predict)
  else None.

(** [parser.print_help()] and [exit_silently()] *)
Definition help_and_exit (w : world) : program_run :=
  {| ending_of := SystemExit 1; help_printed := true; world_of := w |}.

(** From the computation of the function name on. *)
Definition dispatch (proc : process) (subcommand : option string) (args : Namespace)
  (w : world) : program_run :=
  match subcommand with
  | None => {| ending_of := Raised AttributeError; help_printed := false; world_of := w |}
  | Some s =>
      let subcommand_function_name := "do_" +:+ replace_dash s in
      match do_function subcommand_function_name with
      | None =>
          match message_warn 498 [AStr s] with
          | Ok text =>
              help_and_exit
                {| fs := fs w; log := log w ++ [Message text]; calls := calls w |}
          | Raise e => {| ending_of := Raised e; help_printed := false; world_of := w |}
          end
      | Some do_subcommand => finished (do_subcommand proc args w)
      end
  end.

(** The main block, after logging is configured.  [argv] is [sys.argv]. *)
Definition main (proc : process) (argv : list string) (w : world) : program_run :=
  match argv with
  | _ :: _ :: _ =>
      match parse_args argv with
      | Parsed subcommand args => dispatch proc subcommand args w
      | ParserExit status =>
          {| ending_of := SystemExit status; help_printed := false; world_of := w |}
      end
  | _ =>
      match environ proc !! "SENZING_SUBCOMMAND" with
      | Some s =>
          if String.eqb s "" then help_and_exit w
          else dispatch proc (Some s) empty_namespace w
      | None => help_and_exit w
      end
  end.

End Main.

Arguments do_function json_loads shuffle pickle_dumps pickle_loads
  {vectorizer transformer classifier counts tfidf}.
Arguments dispatch json_loads shuffle pickle_dumps pickle_loads
  {vectorizer transformer classifier counts tfidf}.
Arguments main json_loads shuffle pickle_dumps pickle_loads
  {vectorizer transformer classifier counts tfidf}.

(** ** Notions the theorems are stated with *)

(** What the loop [for value in values: output_file.write(...)] leaves in
    a file that was empty. *)
Definition file_content (values : list value) : string :=
  fold_right (fun v rest => format_value v +:+ newline +:+ rest) EmptyString values.

(** The world once [common_prolog] has logged the entry line. *)
Definition entered (c : config) (w : world) : world :=
  {| fs := fs w; log := log w ++ [Enter c]; calls := calls w |}.

(** The world once [do_train] has called [load_files]. *)
Definition loading (c : config) (w : world) : world :=
  {| fs := fs w; log := log w ++ [Enter c];
     calls := calls w ++ [load_files_call (input_directory c)] |}.

(** The world [do_train] leaves when it returns: the byte string [stream]
    of the data set is in the model file [f]. *)
Definition trained (c : config) (model : bunch) (stream : string) (f : Fs.path)
  (w : world) : world :=
  {| fs := <[f := Fs.File stream]> (fs w);
     log := log w ++ [Enter c; Exit c];
     calls := calls w ++ [load_files_call (input_directory c);
                          pickle_dump_call model (model_file c)] |}.

(** The calls [do_test_phrase] makes when every one of them returns. *)
Definition test_phrase_calls (c : config) (training_data : list string)
  (training_target : list nat) : list call :=
  [pickle_load_call (model_file c);
   CountVectorizer_fit_transform_call training_data;
   TfidfTransformer_fit_transform_call;
   MultinomialNB_fit_call training_target;
   CountVectorizer_transform_call [test_phrase c];
   TfidfTransformer_transform_call;
   MultinomialNB_predict_call].

(** The calls that fit something to the training data. *)
Definition is_fit (c : call) : bool :=
  match c with
  | CountVectorizer_fit_transform_call _
  | TfidfTransformer_fit_transform_call
  | MultinomialNB_fit_call _ => true
  | _ => false
  end.

(** Two file systems that are the same except, possibly, for the content
    of the regular file at [p]. *)
Definition same_but (p : Fs.path) (fs1 fs2 : Fs.t) : Prop :=
  forall q, fs1 !! q = fs2 !! q \/
    (q = p /\ exists c1 c2, fs1 !! q = Some (Fs.File c1) /\ fs2 !! q = Some (Fs.File c2)).

Definition same_world_but (p : Fs.path) (w1 w2 : world) : Prop :=
  same_but p (fs w1) (fs w2) /\ log w1 = log w2 /\ calls w1 = calls w2.

(** A computation that cannot tell such worlds apart. *)
Definition respects {A} (p : Fs.path) (m : M.t world A) : Prop :=
  forall w1 w2, same_world_but p w1 w2 ->
    fst (m w1) = fst (m w2) /\ same_world_but p (snd (m w1)) (snd (m w2)).

Definition fs_respects {A} (p : Fs.path) (op : Fs.t -> outcome A * Fs.t) : Prop :=
  forall fs1 fs2, same_but p fs1 fs2 ->
    fst (op fs1) = fst (op fs2) /\ same_but p (snd (op fs1)) (snd (op fs2)).

(** The value a key ends with: the command line's if it is not empty, else
    the environment's if it is not empty, else the default. *)
Definition resolved {A} (inject : string -> A) (arg env : option string) (default : A) : A :=
  match arg, env with
  | Some a, _ => if truthy arg then inject a else
                   match env with
                   | Some e => if truthy env then inject e else default
                   | None => default
                   end
  | None, Some e => if truthy env then inject e else default
  | None, None => default
  end.

(** All the (key, value) pairs of the yielded dictionaries, in the order
    in which the two loops of [do_prepare] meet them. *)
Definition pairs_of (dictionaries : list parsed) : list (string * value) :=
  concat (map (fun d => match d with Dict items => items | NonDict => [] end) dictionaries).

(** The values that stand under [key], in that order. *)
Definition values_of (key : string) (pairs : list (string * value)) : list value :=
  map snd (List.filter (fun kv => String.eqb (fst kv) key) pairs).

(** [key_values.get(key)] *)
Fixpoint find_key (key : string) (key_values : list (string * list value))
  : option (list value) :=
  match key_values with
  | [] => None
  | (k, vs) :: rest => if String.eqb k key then Some vs else find_key key rest
  end.

(** The list under a key after further values were appended to it. *)
Definition grouped (old : option (list value)) (new : list value) : option (list value) :=
  match old, new with
  | Some vs, _ => Some (vs ++ new)
  | None, [] => None
  | None, _ => Some new
  end.

(** Characters a key may have to be used as a file name as it stands:
    ASCII, and neither [/] nor NUL. *)
Fixpoint plain_characters (s : string) : bool :=
  match s with
  | EmptyString => true
  | String c s' =>
      negb (Ascii.eqb c "/") && negb (Ascii.eqb c "000") && (N_of_ascii c <? 128)%N
      && plain_characters s'
  end.

(** A key that names a directory entry: of such characters, and not
    empty, [.] or [..]. *)
Definition plain_key (key : string) : bool :=
  negb (String.eqb key "") && negb (String.eqb key ".") && negb (String.eqb key "..")
  && plain_characters key.

(** Text of ASCII characters: a key or a value of such text is a file
    name, and is written to a file, as it stands. *)
Fixpoint ascii_text (s : string) : bool :=
  match s with
  | EmptyString => true
  | String c s' => (N_of_ascii c <? 128)%N && ascii_text s'
  end.


(** Well-formed UTF-8: the bytes of a file that the text layer of
    [open] decodes without [UnicodeDecodeError].  [expected] holds the
    ranges of the bytes that have to follow to complete a character. *)
Fixpoint utf8_from (s : string) (expected : list (N * N)) : bool :=
  match s with
  | EmptyString =>
      match expected with
      | [] => true
      | _ => false
      end
  | String c s' =>
      let n := N_of_ascii c in
      match expected with
      | (low, high) :: rest => ((low <=? n) && (n <=? high))%N && utf8_from s' rest
      | [] =>
          if (n <? 128)%N then utf8_from s' []
          else if ((194 <=? n) && (n <=? 223))%N then utf8_from s' [(128, 191)%N]
          else if (n =? 224)%N then utf8_from s' [(160, 191)%N; (128, 191)%N]
          else if ((225 <=? n) && (n <=? 236))%N then
            utf8_from s' [(128, 191)%N; (128, 191)%N]
          else if (n =? 237)%N then utf8_from s' [(128, 159)%N; (128, 191)%N]
          else if ((238 <=? n) && (n <=? 239))%N then
            utf8_from s' [(128, 191)%N; (128, 191)%N]
          else if (n =? 240)%N then
            utf8_from s' [(144, 191)%N; (128, 191)%N; (128, 191)%N]
          else if ((241 <=? n) && (n <=? 243))%N then
            utf8_from s' [(128, 191)%N; (128, 191)%N; (128, 191)%N]
          else if (n =? 244)%N then
            utf8_from s' [(128, 143)%N; (128, 191)%N; (128, 191)%N]
          else false
      end
  end.

Definition utf8_text (s : string) : bool := utf8_from s [].

Fixpoint no_nul (s : string) : bool :=
  match s with
  | EmptyString => true
  | String c s' => negb (Ascii.eqb c "000") && no_nul s'
  end.

(** A path name without NUL in which no component is [.] or [..]: the
    kernel reads such a name the way [Fs.resolve] does. *)
Definition plain_path (name : string) : bool :=
  no_nul name &&
  forallb (fun component =>
             negb (String.eqb component ".") && negb (String.eqb component ".."))
          (Fs.split "/" name).


(** Every entry of the file system lies in a directory. *)
Definition well_formed (files : Fs.t) : bool :=
  forallb (fun entry =>
             forallb (fun a => match files !! a with Some Fs.Dir => true | _ => false end)
                     (Fs.ancestors (fst entry)))
          (map_to_list files).

(** A string without braces. *)
Fixpoint no_brace (s : string) : bool :=
  match s with
  | EmptyString => true
  | String c s' => negb (Ascii.eqb c "{") && negb (Ascii.eqb c "}") && no_brace s'
  end.

(** ** Concrete inputs

    The inputs at which the general theorems are instantiated and the
    script is run. *)
Module Example.

Definition quote : ascii := "034"%char.

Definition quoted (s : string) : string :=
  String quote (s +:+ String quote EmptyString).

Definition is_json_space (c : ascii) : bool :=
  Ascii.eqb c " " || Ascii.eqb c "009" || Ascii.eqb c "010" || Ascii.eqb c "013".

Inductive scan :=
| BeforeObject
| BeforeKey (first : bool)
| InKey (key : string)
| BeforeColon (key : string)
| BeforeValue (key : string)
| InValue (key text : string)
| AfterValue
| AfterObject.

Definition snoc_char (s : string) (c : ascii) : string := s +:+ String c EmptyString.

(** One character of a string literal: the closing quote, or a character
    that stands for itself. *)
Definition in_literal (c : ascii) : option (option ascii) :=
  if Ascii.eqb c quote then Some None
  else if Ascii.eqb c "\" || (N_of_ascii c <? 32)%N then None
  else Some (Some c).

Fixpoint scan_flat (text : string) (state : scan) (items : list (string * value))
  : option parsed :=
  match text with
  | EmptyString =>
      match state with
      | AfterObject => Some (Dict items)
      | _ => None
      end
  | String c rest =>
      match state with
      | InKey key =>
          match in_literal c with
          | Some None => scan_flat rest (BeforeColon key) items
          | Some (Some x) => scan_flat rest (InKey (snoc_char key x)) items
          | None => None
          end
      | InValue key text' =>
          match in_literal c with
          | Some None => scan_flat rest AfterValue (items ++ [(key, VStr text')])
          | Some (Some x) => scan_flat rest (InValue key (snoc_char text' x)) items
          | None => None
          end
      | BeforeObject =>
          if is_json_space c then scan_flat rest state items
          else if Ascii.eqb c "{" then scan_flat rest (BeforeKey true) items
          else None
      | BeforeKey first =>
          if is_json_space c then scan_flat rest state items
          else if Ascii.eqb c quote then scan_flat rest (InKey EmptyString) items
          else if first && Ascii.eqb c "}" then scan_flat rest AfterObject items
          else None
      | BeforeColon key =>
          if is_json_space c then scan_flat rest state items
          else if Ascii.eqb c ":" then scan_flat rest (BeforeValue key) items
          else None
      | BeforeValue key =>
          if is_json_space c then scan_flat rest state items
          else if Ascii.eqb c quote then scan_flat rest (InValue key EmptyString) items
          else None
      | AfterValue =>
          if is_json_space c then scan_flat rest state items
          else if Ascii.eqb c "," then scan_flat rest (BeforeKey false) items
          else if Ascii.eqb c "}" then scan_flat rest AfterObject items
          else None
      | AfterObject =>
          if is_json_space c then scan_flat rest state items else None
      end
  end.

(** [json.loads] on the lines of the examples: one object whose keys are
    distinct and whose values are strings, written without escape
    sequences.  On such a line this is what [json.loads] returns.  Any
    other line is rejected here, so this function stands for [json.loads]
    on the example inputs only. *)
Definition json_loads (line : string) : outcome parsed :=
  match scan_flat line BeforeObject [] with
  | Some d => Ok d
  | None => Raise JSONDecodeError
  end.

Definition member (key text : string) : string :=
  quoted key +:+ ":" +:+ quoted text.

(** The two records of the scenario, as lines of a JSON Lines file. *)
Definition line1 : string :=
  "{" +:+ member "color" "red" +:+ "," +:+ member "size" "M" +:+ "}" +:+ newline.

Definition line2 : string :=
  "{" +:+ member "color" "blue" +:+ "," +:+ member "size" "L" +:+ "}" +:+ newline.

Definition record1 : parsed := Dict [("color", VStr "red"); ("size", VStr "M")].
Definition record2 : parsed := Dict [("color", VStr "blue"); ("size", VStr "L")].

(** A process in [/home] with no environment variable set and no INI file. *)
Definition proc : process :=
  {| cwd := ["home"]; environ := ∅; ini_file_found := false |}.

Definition no_args : Namespace := {|
  arg_input_directory := None;
  arg_jsonlines_file := None;
  arg_model_file := None;
  arg_output_directory := None;
  arg_test_phrase := None
|}.

(** [prepare --jsonlines-file records.jsonl --output-directory out/] *)
Definition prepare_args : Namespace := {|
  arg_input_directory := None;
  arg_jsonlines_file := Some "records.jsonl";
  arg_model_file := None;
  arg_output_directory := Some "out/";
  arg_test_phrase := None
|}.

Definition start (files : Fs.t) : world :=
  {| fs := files; log := []; calls := [] |}.

(** [/home] holds the input file and nothing else. *)
Definition fresh : Fs.t :=
  list_to_map [([], Fs.Dir); (["home"], Fs.Dir);
               (["home"; "records.jsonl"], Fs.File (line1 +:+ line2))].


(** A training directory with a single category, holding one document. *)
Definition one_category : Fs.t :=
  list_to_map [([], Fs.Dir); (["home"], Fs.Dir);
               (["home"; "corpus"], Fs.Dir);
               (["home"; "corpus"; "color"], Fs.Dir);
               (["home"; "corpus"; "color"; "color.txt"],
                Fs.File ("red" +:+ newline +:+ "blue" +:+ newline))].

(** The same with a second category folder that is empty. *)
Definition empty_category : Fs.t :=
  <[["home"; "corpus"; "size"] := Fs.Dir]> one_category.

(** [train --input-directory corpus] *)
Definition train_args : Namespace := {|
  arg_input_directory := Some "corpus";
  arg_jsonlines_file := None;
  arg_model_file := None;
  arg_output_directory := None;
  arg_test_phrase := None
|}.

(** With at most one document there is nothing to shuffle. *)
Definition shuffle (n : nat) : list nat := seq 0 n.

(** The data set [load_files] builds from [one_category]. *)
Definition color_bunch : bunch := {|
  data := ["red" +:+ newline +:+ "blue" +:+ newline];
  filenames := ["corpus/color/color.txt"];
  target_names := ["color"];
  target := [0%nat]
|}.

(** Stand-ins for [pickle]: the byte string is a rendering of the
    documents, and the only stream that is recognised is the one of
    [color_bunch]. *)
Definition pickle_dumps (b : bunch) : string :=
  fold_right (fun d rest => d +:+ "." +:+ rest) "." (data b).

Definition pickle_loads (stream : string) : outcome pyobject :=
  if String.eqb stream (pickle_dumps color_bunch) then Ok (object_of_bunch color_bunch)
  else Raise (LibraryError "UnpicklingError").

(** Stand-ins for the scikit-learn routines: fitted objects and matrices
    carry nothing, every routine returns, and the classifier answers class
    0; only [transform] looks at its argument, and raises on a sample that
    is [None], as [CountVectorizer.transform] does when it calls [lower]
    on it. *)
Definition fit_transform_counts (raw_documents : list string) : outcome (unit * unit) :=
  Ok (tt, tt).

Definition fit_transform_tfidf (X : unit) : outcome (unit * unit) := Ok (tt, tt).

Definition fit_classifier (X : unit) (y : list nat) : outcome unit := Ok tt.

Definition transform_counts (v : unit) (raw_documents : list (option string))
  : outcome unit :=
  if forallb (fun d => match d with Some _ => true | None => false end) raw_documents
  then Ok tt else Raise AttributeError.

Definition transform_tfidf (t X : unit) : outcome unit := Ok tt.

Definition predict (clf X : unit) : outcome (list nat) := Ok [0%nat].

(** [test-phrase --test-phrase zebra] and [test-phrase --test-phrase ""] *)
Definition phrase_args (phrase : string) : Namespace := {|
  arg_input_directory := None;
  arg_jsonlines_file := None;
  arg_model_file := None;
  arg_output_directory := None;
  arg_test_phrase := Some phrase
|}.

(** An input file of 10000 lines, and the same with a further line that
    is no JSON. *)
Fixpoint copies (n : nat) (s : string) : string :=
  match n with
  | O => EmptyString
  | S n' => s +:+ copies n' s
  end.

Definition full : string := copies (Z.to_nat 10000) ("{}" +:+ newline).

Definition overfull : string := full +:+ "not json" +:+ newline.

Definition long_input : Fs.t :=
  list_to_map [([], Fs.Dir); (["home"], Fs.Dir);
               (["home"; "records.jsonl"], Fs.File overfull)].

(** The world after [train] on [one_category], and [test-phrase] run in it. *)
Definition trained_world : world :=
  snd (do_train shuffle pickle_dumps proc train_args (start one_category)).

Definition test (phrase : string) : outcome unit * world :=
  do_test_phrase pickle_loads fit_transform_counts fit_transform_tfidf
    fit_classifier transform_counts transform_tfidf predict
    proc (phrase_args phrase) trained_world.

(** An input whose second line is no JSON. *)
Definition broken_input : Fs.t :=
  list_to_map [([], Fs.Dir); (["home"], Fs.Dir);
               (["home"; "records.jsonl"], Fs.File (line1 +:+ "not json" +:+ newline))].

(** An input with one record whose two keys differ in case only. *)
Definition mixed_case_line : string :=
  "{" +:+ member "Color" "red" +:+ "," +:+ member "color" "blue" +:+ "}" +:+ newline.

Definition mixed_case : Fs.t :=
  list_to_map [([], Fs.Dir); (["home"], Fs.Dir);
               (["home"; "records.jsonl"], Fs.File mixed_case_line)].

(** [/home] with a [slice-algorithm.ini] in it, and a process there. *)
Definition with_ini_file : Fs.t :=
  <[["home"; "slice-algorithm.ini"] := Fs.File ""]> fresh.

Definition proc_with_ini_file : process :=
  {| cwd := ["home"]; environ := ∅; ini_file_found := true |}.

(** A process that has [SENZING_SUBCOMMAND] set. *)
Definition proc_with_subcommand (subcommand : string) : process :=
  {| cwd := ["home"];
     environ := {[ "SENZING_SUBCOMMAND" := subcommand ]};
     ini_file_found := false |}.

(** A parser that rejects every command line. *)
Definition parse_args (argv : list string) : parse_result := ParserExit 2.

(** An input with one record whose key has a slash in it. *)
Definition slash_key : Fs.t :=
  list_to_map [([], Fs.Dir); (["home"], Fs.Dir);
               (["home"; "records.jsonl"],
                Fs.File ("{" +:+ member "address/street" "Main" +:+ "}" +:+ newline))].

End Example.

(** * Theorems *)

(** ** Strings and the file system *)


Lemma ancestors_snoc (p : Fs.path) (c : string) :
  Fs.ancestors (p ++ [c]) = Fs.ancestors p ++ [p].
Proof.
  induction p as [|a p IH]; simpl; [reflexivity|].
  now rewrite IH, map_app.
Qed.

Lemma lookup_mkdir_all (files : Fs.t) (ps : list Fs.path) (q : Fs.path) :
  Fs.mkdir_all files ps !! q = if decide (q ∈ ps) then Some Fs.Dir else files !! q.
Proof.
  unfold Fs.mkdir_all. revert files.
  induction ps as [|d rest IH]; intros files; cbn [fold_left].
  - rewrite decide_False; [reflexivity|]. apply not_elem_of_nil.
  - rewrite IH. destruct (decide (q ∈ rest)) as [Hin|Hnotin].
    + rewrite decide_True; [reflexivity|]. now apply elem_of_cons; right.
    + destruct (decide (d = q)) as [-> | Hne].
      * rewrite lookup_insert_eq, decide_True; [reflexivity|]. apply elem_of_cons; now left.
      * rewrite lookup_insert_ne by done. rewrite decide_False; [reflexivity|].
        intros [->|H]%elem_of_cons; [now apply Hne|now apply Hnotin].
Qed.

Lemma ancestors_shorter (p a : Fs.path) :
  a ∈ Fs.ancestors p -> (length a < length p)%nat.
Proof.
  revert a. induction p as [|c p IH]; intros a Ha; simpl in *.
  - now apply elem_of_nil in Ha.
  - apply elem_of_cons in Ha as [-> | Ha]; [simpl; lia|].
    apply list_elem_of_fmap in Ha as (a' & -> & Ha'). simpl.
    specialize (IH _ Ha'). lia.
Qed.

Lemma walk_dirs (files : Fs.t) (dirs : list Fs.path) :
  (forall d, d ∈ dirs -> files !! d = Some Fs.Dir) -> Fs.walk files dirs = Ok tt.
Proof.
  induction dirs as [|d rest IH]; intros H; simpl; [reflexivity|].
  rewrite (H d) by (apply elem_of_cons; now left).
  apply IH. intros d' Hd'. apply H, elem_of_cons. now right.
Qed.

Lemma append_cons (x : ascii) (a b : string) : String x a +:+ b = String x (a +:+ b).
Proof. reflexivity. Qed.

Lemma append_nil (b : string) : "" +:+ b = b.
Proof. reflexivity. Qed.

Lemma string_app_assoc (a b c : string) : (a +:+ b) +:+ c = a +:+ (b +:+ c).
Proof.
  induction a as [|x a IH]; [reflexivity|].
  now rewrite !append_cons, IH.
Qed.

Lemma string_app_empty_r (a : string) : a +:+ "" = a.
Proof.
  induction a as [|x a IH]; [reflexivity|].
  now rewrite append_cons, IH.
Qed.

Lemma ends_with_slash_app (s t : string) :
  t <> "" -> Fs.ends_with_slash (s +:+ t) = Fs.ends_with_slash t.
Proof.
  intros Ht. induction s as [|c s IH]; [reflexivity|].
  rewrite append_cons. cbn [Fs.ends_with_slash].
  destruct (s +:+ t) eqn:Hst; [|exact IH].
  destruct s; [rewrite append_nil in Hst; contradiction|].
  rewrite append_cons in Hst. discriminate.
Qed.

Lemma app_nonempty_r (s t : string) : t <> "" -> String.eqb (s +:+ t) "" = false.
Proof.
  intros Ht. destruct s; [|reflexivity].
  rewrite append_nil. destruct t; [contradiction|reflexivity].
Qed.

Lemma filename_of_not_empty out key : String.eqb (filename_of out key) "" = false.
Proof.
  unfold filename_of. rewrite <- !string_app_assoc. now apply app_nonempty_r.
Qed.

Lemma filename_of_no_slash out key : Fs.ends_with_slash (filename_of out key) = false.
Proof.
  unfold filename_of. rewrite <- !string_app_assoc.
  now rewrite ends_with_slash_app.
Qed.

(** Writing the values one by one appends them to the open file. *)
Lemma for_each_fwrite (f : Fs.path) (values : list value) (w : world) (c : string) :
  fs w !! f = Some (Fs.File c) ->
  M.for_each values
    (fun v => on_fs (Fs.fwrite f (format_value v +:+ newline))) w =
  (Ok tt, {| fs := <[f := Fs.File (c +:+ file_content values)]> (fs w);
             log := log w; calls := calls w |}).
Proof.
  revert w c. induction values as [|v rest IH]; intros w c Hf; simpl.
  - unfold M.ret. rewrite string_app_empty_r, insert_id by exact Hf. now destruct w.
  - unfold M.bind, on_fs at 1, Fs.fwrite at 1. rewrite Hf. simpl.
    rewrite (IH _ (c +:+ format_value v +:+ newline)) by (simpl; apply lookup_insert_eq).
    simpl. rewrite insert_insert_eq.
    now rewrite !string_app_assoc.
Qed.

Lemma write_key_fresh proc out key values w :
  let d := Fs.resolve (cwd proc) (directory_of out key) in
  let f := Fs.resolve (cwd proc) (filename_of out key) in
  fs w !! d = None ->
  existsb (Fs.is_file (fs w)) (Fs.ancestors d) = false ->
  Fs.ancestors f = Fs.ancestors d ++ [d] ->
  fs w !! f = None ->
  f <> d ->
  write_key proc out (key, values) w =
  (Ok tt, {| fs := <[f := Fs.File (file_content values)]>
                     (Fs.mkdir_all (fs w) (Fs.ancestors d ++ [d]));
             log := log w; calls := calls w |}).
Proof.
  intros d f Hd Hanc Hf Hnone Hne.
  unfold write_key, M.bind. simpl fst; simpl snd.
  unfold on_fs at 1, Fs.makedirs, Fs.exists_. fold d. rewrite Hd, Hanc.
  unfold on_fs at 1, Fs.open_w. cbn [fs]. fold f.
  rewrite filename_of_not_empty, Hf.
  rewrite walk_dirs by (intros a Ha; rewrite lookup_mkdir_all; now rewrite decide_True).
  assert (Hfree : Fs.mkdir_all (fs w) (Fs.ancestors d ++ [d]) !! f = None).
  { rewrite lookup_mkdir_all, decide_False; [exact Hnone|].
    intros [Hin| ->%list_elem_of_singleton]%elem_of_app; [|now apply Hne].
    apply ancestors_shorter in Hin.
    assert (Hd' : d ∈ Fs.ancestors f) by (rewrite Hf; apply elem_of_app; right; apply list_elem_of_singleton; reflexivity).
    apply ancestors_shorter in Hd'. lia. }
  rewrite Hfree, filename_of_no_slash.
  rewrite (for_each_fwrite f values _ "") by (simpl; apply lookup_insert_eq).
  simpl. now rewrite insert_insert_eq.
Qed.

Lemma write_key_new proc out key values w (d : Fs.path) (n : string) :
  Fs.resolve (cwd proc) (directory_of out key) = d ->
  Fs.resolve (cwd proc) (filename_of out key) = d ++ [n] ->
  fs w !! d = None ->
  existsb (Fs.is_file (fs w)) (Fs.ancestors d) = false ->
  fs w !! (d ++ [n]) = None ->
  write_key proc out (key, values) w =
  (Ok tt, {| fs := <[d ++ [n] := Fs.File (file_content values)]>
                     (Fs.mkdir_all (fs w) (Fs.ancestors d ++ [d]));
             log := log w; calls := calls w |}).
Proof.
  intros Hd Hf Hnone Hanc Hfile.
  pose proof (write_key_fresh proc out key values w) as H.
  cbv zeta in H. rewrite Hd, Hf in H. apply H; try assumption.
  - apply ancestors_snoc.
  - intros Heq. apply (f_equal length) in Heq. rewrite length_app in Heq.
    simpl in Heq. lia.
Qed.

Lemma elem_of_ancestors (p q : Fs.path) :
  q ∈ Fs.ancestors p <-> exists r, r <> [] /\ p = q ++ r.
Proof.
  revert q. induction p as [|c p IH]; intros q; simpl.
  - split; [intros H; now apply elem_of_nil in H|].
    intros (r & Hr & Heq). symmetry in Heq. apply app_eq_nil in Heq as [_ ->].
    contradiction.
  - rewrite elem_of_cons, list_elem_of_fmap. split.
    + intros [-> | (a & -> & Ha)].
      * exists (c :: p). split; [discriminate|reflexivity].
      * apply IH in Ha as (r & Hr & ->). exists r. split; [exact Hr|reflexivity].
    + intros (r & Hr & Heq). destruct q as [|c' q]; [now left|right].
      simpl in Heq. injection Heq as <- ->.
      exists q. split; [reflexivity|]. apply IH. eauto.
Qed.

Lemma elem_of_prefixes (p q : Fs.path) :
  q ∈ Fs.ancestors p ++ [p] <-> exists r, p = q ++ r.
Proof.
  rewrite elem_of_app, elem_of_ancestors, list_elem_of_singleton. split.
  - intros [(r & _ & ->) | ->]; [now exists r|exists []; now rewrite app_nil_r].
  - intros (r & ->). destruct r as [|c r]; [right; now rewrite app_nil_r|left].
    exists (c :: r). split; [discriminate|reflexivity].
Qed.

Lemma walk_ok_dirs (files : Fs.t) (dirs : list Fs.path) :
  Fs.walk files dirs = Ok tt -> forall d, d ∈ dirs -> files !! d = Some Fs.Dir.
Proof.
  induction dirs as [|a rest IH]; intros Hwalk d Hd.
  - now apply elem_of_nil in Hd.
  - simpl in Hwalk. destruct (files !! a) as [[|c]|] eqn:Ha; try discriminate.
    apply elem_of_cons in Hd as [-> | Hd]; [exact Ha|now apply IH].
Qed.

Lemma no_file_among (files : Fs.t) (dirs : list Fs.path) :
  (forall d, d ∈ dirs -> Fs.is_file files d = false) ->
  existsb (Fs.is_file files) dirs = false.
Proof.
  induction dirs as [|a rest IH]; intros H; simpl; [reflexivity|].
  rewrite (H a) by (apply elem_of_cons; now left). simpl.
  apply IH. intros d Hd. apply H, elem_of_cons. now right.
Qed.


Section Simulation.
Variable p : Fs.path.

Lemma same_but_exists fs1 fs2 q :
  same_but p fs1 fs2 -> Fs.exists_ fs1 q = Fs.exists_ fs2 q.
Proof.
  intros H. unfold Fs.exists_.
  destruct (H q) as [-> | (_ & c1 & c2 & -> & ->)]; reflexivity.
Qed.

Lemma same_but_is_file fs1 fs2 q :
  same_but p fs1 fs2 -> Fs.is_file fs1 q = Fs.is_file fs2 q.
Proof.
  intros H. unfold Fs.is_file.
  destruct (H q) as [-> | (_ & c1 & c2 & -> & ->)]; reflexivity.
Qed.

Lemma same_but_walk fs1 fs2 dirs :
  same_but p fs1 fs2 -> Fs.walk fs1 dirs = Fs.walk fs2 dirs.
Proof.
  intros H. induction dirs as [|d rest IH]; simpl; [reflexivity|].
  destruct (H d) as [-> | (_ & c1 & c2 & -> & ->)]; [|reflexivity].
  now rewrite IH.
Qed.

Lemma same_but_insert fs1 fs2 q n :
  same_but p fs1 fs2 -> same_but p (<[q := n]> fs1) (<[q := n]> fs2).
Proof.
  intros H r. destruct (decide (q = r)) as [-> | Hne].
  - left. now rewrite !lookup_insert_eq.
  - rewrite !lookup_insert_ne by done. apply H.
Qed.

Lemma same_but_mkdir_all fs1 fs2 ps :
  same_but p fs1 fs2 -> same_but p (Fs.mkdir_all fs1 ps) (Fs.mkdir_all fs2 ps).
Proof.
  unfold Fs.mkdir_all. revert fs1 fs2.
  induction ps as [|d rest IH]; intros fs1 fs2 H; simpl; [exact H|].
  apply IH. now apply same_but_insert.
Qed.

Lemma same_but_any_file fs1 fs2 qs :
  same_but p fs1 fs2 -> existsb (Fs.is_file fs1) qs = existsb (Fs.is_file fs2) qs.
Proof.
  intros H. induction qs as [|q rest IH]; simpl; [reflexivity|].
  now rewrite IH, (same_but_is_file fs1 fs2 q H).
Qed.

Lemma makedirs_respects cwd name : fs_respects p (Fs.makedirs cwd name).
Proof.
  intros fs1 fs2 H. unfold Fs.makedirs.
  rewrite (same_but_exists fs1 fs2 _ H), (same_but_any_file fs1 fs2 _ H).
  destruct (Fs.exists_ fs2 _); [now split|].
  destruct (existsb _ _); [now split|].
  split; [reflexivity|]. now apply same_but_mkdir_all.
Qed.

Lemma open_w_respects cwd name : fs_respects p (Fs.open_w cwd name).
Proof.
  intros fs1 fs2 H. unfold Fs.open_w.
  destruct (String.eqb name ""); [now split|].
  rewrite (same_but_walk fs1 fs2 _ H).
  destruct (Fs.walk fs2 _); [|now split].
  destruct (H (Fs.resolve cwd name)) as [Heq | (_ & c1 & c2 & -> & ->)].
  - rewrite Heq. destruct (fs2 !! Fs.resolve cwd name) as [[|c]|];
      try destruct (Fs.ends_with_slash name); simpl; split;
      auto using same_but_insert.
  - destruct (Fs.ends_with_slash name); simpl; split; auto using same_but_insert.
Qed.

Lemma fwrite_respects f text : fs_respects p (Fs.fwrite f text).
Proof.
  intros fs1 fs2 H. unfold Fs.fwrite.
  destruct (H f) as [Heq | (-> & c1 & c2 & H1 & H2)].
  - rewrite Heq. destruct (fs2 !! f) as [[|c]|]; simpl; split;
      auto using same_but_insert.
  - rewrite H1, H2. simpl. split; [reflexivity|].
    intros r. destruct (decide (p = r)) as [<- | Hne].
    + right. rewrite !lookup_insert_eq. eauto.
    + rewrite !lookup_insert_ne by done. apply H.
Qed.

Lemma respects_ret {A} (a : A) : respects p (M.ret a).
Proof. intros w1 w2 H. now split. Qed.

Lemma respects_lift {A} (o : outcome A) : respects p (M.lift o).
Proof. intros w1 w2 H. now split. Qed.

Lemma respects_bind {A B} (m : M.t world A) (k : A -> M.t world B) :
  respects p m -> (forall a, respects p (k a)) -> respects p (M.bind m k).
Proof.
  intros Hm Hk w1 w2 H. unfold M.bind.
  destruct (Hm w1 w2 H) as [Hfst Hsnd].
  destruct (m w1) as [[a1|e1] w1'], (m w2) as [[a2|e2] w2']; simpl in *;
    try discriminate.
  - injection Hfst as ->. now apply Hk.
  - injection Hfst as ->. now split.
Qed.

Lemma respects_on_fs {A} (op : Fs.t -> outcome A * Fs.t) :
  fs_respects p op -> respects p (on_fs op).
Proof.
  intros Hop w1 w2 (Hfs & Hlog & Hcalls). unfold on_fs.
  destruct (Hop _ _ Hfs) as [Hfst Hsnd].
  destruct (op (fs w1)), (op (fs w2)); simpl in *.
  repeat split; assumption.
Qed.

Lemma respects_logging r : respects p (logging_info r).
Proof.
  intros w1 w2 (Hfs & Hlog & Hcalls). unfold logging_info; simpl.
  repeat split; [assumption|now rewrite Hlog|assumption].
Qed.

Lemma respects_for_each {A} (xs : list A) (body : A -> M.t world unit) :
  (forall x, respects p (body x)) -> respects p (M.for_each xs body).
Proof.
  intros Hbody. induction xs as [|x rest IH]; simpl.
  - apply respects_ret.
  - apply respects_bind; [apply Hbody|intros _; exact IH].
Qed.

Lemma write_key_respects proc output_directory kv :
  respects p (write_key proc output_directory kv).
Proof.
  unfold write_key.
  apply respects_bind; [apply respects_on_fs, makedirs_respects|intros _].
  apply respects_bind; [apply respects_on_fs, open_w_respects|intros f].
  apply respects_for_each. intros v. apply respects_on_fs, fwrite_respects.
Qed.
End Simulation.


(** ** Configuration *)

Lemma assign_twice current arg env :
  assign (assign (assign current arg) env) arg = resolved id arg env current.
Proof.
  unfold assign, resolved, truthy.
  destruct arg as [a|], env as [e|]; try reflexivity;
    try destruct (String.eqb a ""); try destruct (String.eqb e ""); reflexivity.
Qed.

Lemma assign_opt_twice current arg env :
  assign_opt (assign_opt (assign_opt current arg) env) arg = resolved Some arg env current.
Proof.
  unfold assign_opt, resolved, truthy.
  destruct arg as [a|], env as [e|]; try reflexivity;
    try destruct (String.eqb a ""); try destruct (String.eqb e ""); reflexivity.
Qed.

(** The precedence [get_configuration] implements: command line, then
    environment, then default, where an empty string counts as absent; and
    an INI file, if one is found, ends the run with [NameError]. *)
Theorem configuration_precedence proc args :
  get_configuration proc args =
  if ini_file_found proc then Raise NameError
  else
    Ok {| input_directory :=
            resolved id (arg_input_directory args)
              (environ proc !! "SENZING_INPUT_DIRECTORY")
              "senzing-mapping-assistant-prepare";
          jsonlines_file :=
            resolved Some (arg_jsonlines_file args)
              (environ proc !! "SENZING_JSONLINES_FILE") None;
          model_file :=
            resolved id (arg_model_file args)
              (environ proc !! "SENZING_MODEL_FILE") "model.pickle";
          output_directory :=
            resolved id (arg_output_directory args)
              (environ proc !! "SENZING_OUTPUT_DIRECTORY")
              "senzing-mapping-assistant-prepare";
          test_phrase :=
            resolved Some (arg_test_phrase args)
              (environ proc !! "SENZING_TEST_PHRASE") None |}.
Proof.
  unfold get_configuration.
  destruct (ini_file_found proc); [reflexivity|].
  unfold copy_args, copy_environ. cbn [input_directory jsonlines_file model_file
    output_directory test_phrase configuration_defaults].
  now rewrite !assign_twice, !assign_opt_twice.
Qed.

(** ** prepare *)

Section PrepareFacts.
Variable json_loads : string -> outcome parsed.

Lemma result_function_length max_lines counter lines :
  0 <= counter ->
  (length (fst (result_function json_loads max_lines counter lines))
   <= Z.to_nat (max_lines - counter))%nat.
Proof.
  revert counter. induction lines as [|line rest IH]; intros counter Hc; simpl.
  - lia.
  - destruct (negb (max_lines =? 0) && (counter + 1 <=? max_lines)) eqn:Hcond.
    + apply andb_prop in Hcond as [_ Hle]. apply Z.leb_le in Hle.
      destruct (json_loads line); simpl; [|lia].
      specialize (IH (counter + 1) ltac:(lia)).
      destruct (result_function json_loads max_lines (counter + 1) rest) as [ds fin].
      simpl in *. lia.
    + simpl. lia.
Qed.

Lemma result_function_zero counter lines :
  result_function json_loads 0 counter lines = ([], Exhausted).
Proof. destruct lines; reflexivity. Qed.

Lemma same_world_but_refl_from p w c1 c2 :
  fs w !! p = Some (Fs.File c1) ->
  same_world_but p w {| fs := <[p := Fs.File c2]> (fs w); log := log w; calls := calls w |}.
Proof.
  intros Hp. split; [|now split]. simpl. intros q.
  destruct (decide (p = q)) as [<- | Hne].
  - right. rewrite lookup_insert_eq. eauto.
  - left. now rewrite lookup_insert_ne.
Qed.

Lemma result_function_firstn max_lines counter lines :
  0 <= counter ->
  result_function json_loads max_lines counter lines =
  result_function json_loads max_lines counter
    (firstn (Z.to_nat (max_lines - counter)) lines).
Proof.
  revert counter. induction lines as [|line rest IH]; intros counter Hc.
  - now rewrite firstn_nil.
  - simpl result_function at 1.
    destruct (negb (max_lines =? 0) && (counter + 1 <=? max_lines)) eqn:Hcond.
    + pose proof Hcond as Hcond'.
      apply andb_prop in Hcond' as [_ Hle]. apply Z.leb_le in Hle.
      replace (Z.to_nat (max_lines - counter))
        with (S (Z.to_nat (max_lines - (counter + 1)))) by lia.
      simpl. rewrite Hcond.
      destruct (json_loads line); [|reflexivity].
      now rewrite <- IH by lia.
    + destruct (Z.to_nat (max_lines - counter)); simpl; [reflexivity|].
      now rewrite Hcond.
Qed.

Lemma generator_same_prefix max_lines proc jf files p c1 c2 :
  files !! p = Some (Fs.File c1) ->
  firstn (Z.to_nat max_lines) (Fs.lines c1) = firstn (Z.to_nat max_lines) (Fs.lines c2) ->
  get_generator_from_jsonlines json_loads jf max_lines proc files =
  get_generator_from_jsonlines json_loads jf max_lines proc (<[p := Fs.File c2]> files).
Proof.
  intros Hp Hlines. unfold get_generator_from_jsonlines, Fs.read_text.
  destruct jf as [name|]; [|reflexivity].
  destruct (String.eqb name ""); [reflexivity|].
  assert (Hsame : same_but p files (<[p := Fs.File c2]> files)).
  { intros q. destruct (decide (p = q)) as [<- | Hne].
    - right. rewrite lookup_insert_eq. eauto.
    - left. now rewrite lookup_insert_ne. }
  rewrite <- (same_but_walk p _ _ _ Hsame).
  destruct (Fs.walk files _); [|reflexivity].
  destruct (decide (p = Fs.resolve (cwd proc) name)) as [<- | Hne].
  - rewrite Hp, lookup_insert_eq.
    destruct (Fs.ends_with_slash name); [reflexivity|].
    rewrite (result_function_firstn _ _ (Fs.lines c1)) by lia.
    rewrite (result_function_firstn _ _ (Fs.lines c2)) by lia.
    now rewrite !Z.sub_0_r, Hlines.
  - now rewrite lookup_insert_ne.
Qed.

Lemma do_prepare_eq proc args w :
  do_prepare json_loads proc args w =
  match get_configuration proc args with
  | Raise e => (Raise e, w)
  | Ok config =>
      match build_key_values
              (get_generator_from_jsonlines json_loads (jsonlines_file config)
                 10000 proc (fs w)) with
      | Raise e => (Raise e, entered config w)
      | Ok key_values =>
          M.bind (M.for_each key_values (write_key proc (output_directory config)))
            (fun _ => logging_info (Exit config)) (entered config w)
      end
  end.
Proof.
  unfold do_prepare, M.bind, M.lift.
  destruct (get_configuration proc args) as [config|e]; [|reflexivity].
  simpl. destruct (build_key_values _); reflexivity.
Qed.

Lemma do_prepare_ignores_rest proc args w p c1 c2 :
  fs w !! p = Some (Fs.File c1) ->
  firstn (Z.to_nat 10000) (Fs.lines c1) = firstn (Z.to_nat 10000) (Fs.lines c2) ->
  let w' := {| fs := <[p := Fs.File c2]> (fs w); log := log w; calls := calls w |} in
  fst (do_prepare json_loads proc args w) = fst (do_prepare json_loads proc args w') /\
  log (snd (do_prepare json_loads proc args w)) =
    log (snd (do_prepare json_loads proc args w')) /\
  forall q, q <> p ->
    fs (snd (do_prepare json_loads proc args w)) !! q =
    fs (snd (do_prepare json_loads proc args w')) !! q.
Proof.
  intros Hp Hlines w'.
  assert (Hrel : same_world_but p w w') by exact (same_world_but_refl_from p w c1 c2 Hp).
  assert (Hgoal : fst (do_prepare json_loads proc args w) =
                  fst (do_prepare json_loads proc args w') /\
                  same_world_but p (snd (do_prepare json_loads proc args w))
                    (snd (do_prepare json_loads proc args w'))).
  { rewrite !do_prepare_eq.
    destruct (get_configuration proc args) as [config|e]; [|now split].
    assert (Hentered : same_world_but p (entered config w) (entered config w')).
    { destruct Hrel as (Hfs & Hlog & Hcalls). repeat split; simpl; assumption. }
    subst w'. cbn [fs].
    rewrite <- (generator_same_prefix 10000 proc _ (fs w) p c1 c2 Hp Hlines).
    destruct (build_key_values _) as [key_values|e];
      [|split; [reflexivity|exact Hentered]].
    apply respects_bind; [| |exact Hentered].
    - apply respects_for_each. intros kv. apply write_key_respects.
    - intros _. apply respects_logging. }
  destruct Hgoal as (Hfst & Hfs & Hlog & _).
  repeat split; try assumption.
  intros q Hq. destruct (Hfs q) as [Heq | (-> & _)]; [assumption|contradiction].
Qed.

(** C3.  The scenario: two records with the keys [color] and [size], read
    from a file in the working directory, with [out/] as output directory.
    Provided [out] is not a regular file and holds neither [color] nor
    [size], [do_prepare] returns and leaves [out/color/color.txt] with the
    lines [red], [blue] and [out/size/size.txt] with the lines [M], [L].
    The input is a file of UTF-8 text named by a plain path, so that the
    model reads it as the operating system and the text layer do. *)
Theorem prepare_scenario proc args w config jsonl content line1 line2 :
  let out := cwd proc ++ ["out"] in
  get_configuration proc args = Ok config ->
  jsonlines_file config = Some jsonl ->
  output_directory config = "out/" ->
  plain_path jsonl = true ->
  Fs.read_text (cwd proc) jsonl (fs w) = Ok content ->
  utf8_text content = true ->
  Fs.lines content = [line1; line2] ->
  json_loads line1 = Ok Example.record1 ->
  json_loads line2 = Ok Example.record2 ->
  Fs.walk (fs w) (Fs.ancestors out) = Ok tt ->
  Fs.is_file (fs w) out = false ->
  fs w !! (out ++ ["color"]) = None ->
  fs w !! (out ++ ["size"]) = None ->
  fs w !! (out ++ ["color"; "color.txt"]) = None ->
  fs w !! (out ++ ["size"; "size.txt"]) = None ->
  exists w',
    do_prepare json_loads proc args w = (Ok tt, w') /\
    fs w' !! (out ++ ["color"; "color.txt"]) =
      Some (Fs.File ("red" +:+ newline +:+ "blue" +:+ newline)) /\
    fs w' !! (out ++ ["size"; "size.txt"]) =
      Some (Fs.File ("M" +:+ newline +:+ "L" +:+ newline)).
Proof.
  intros out Hconfig Hjsonl Hout Hplain Hread Hascii Hlines Hl1 Hl2 Hwalk Hnofile
    Hc Hs Hcf Hsf.
  rewrite do_prepare_eq, Hconfig, Hjsonl, Hout. unfold entered.
  unfold get_generator_from_jsonlines. rewrite Hread, Hlines.
  cbn [result_function]. 
  replace (negb (10000 =? 0) && (0 + 1 <=? 10000)) with true by reflexivity.
  rewrite Hl1.
  replace (negb (10000 =? 0) && (0 + 1 + 1 <=? 10000)) with true by reflexivity.
  rewrite Hl2.
  change (build_key_values ([Example.record1; Example.record2], Exhausted))
    with (Ok [("color", [VStr "red"; VStr "blue"]); ("size", [VStr "M"; VStr "L"])]).
  cbn [M.for_each]. unfold M.bind at 1 2.
  assert (Hanc : forall a, a ∈ Fs.ancestors out ++ [out] -> Fs.is_file (fs w) a = false).
  { intros a [Ha | ->%list_elem_of_singleton]%elem_of_app; [|exact Hnofile].
    unfold Fs.is_file. now rewrite (walk_ok_dirs _ _ Hwalk a Ha). }
  rewrite (write_key_new proc "out/" "color" _ _ (out ++ ["color"]) "color.txt");
    [|reflexivity|reflexivity|exact Hc
     |rewrite ancestors_snoc; now apply no_file_among
     |now rewrite <- app_assoc].
  cbn [fs log calls].
  set (fs1 := <[(out ++ ["color"]) ++ ["color.txt"] := _]> _).
  assert (Hfs1 : forall q, fs1 !! q =
            if decide ((out ++ ["color"]) ++ ["color.txt"] = q)
            then Some (Fs.File (file_content [VStr "red"; VStr "blue"]))
            else if decide (q ∈ Fs.ancestors (out ++ ["color"]) ++ [out ++ ["color"]])
                 then Some Fs.Dir else fs w !! q).
  { intros q. subst fs1. now rewrite lookup_insert, lookup_mkdir_all. }
  assert (Hs1 : fs1 !! (out ++ ["size"]) = None).
  { rewrite Hfs1, decide_False, decide_False; [exact Hs| |].
    - intros (r & Hr)%elem_of_prefixes. rewrite <- app_assoc in Hr.
      apply app_inv_head in Hr. discriminate.
    - intros Heq. rewrite <- app_assoc in Heq. apply app_inv_head in Heq. discriminate. }
  assert (Hsf1 : fs1 !! ((out ++ ["size"]) ++ ["size.txt"]) = None).
  { rewrite Hfs1, decide_False, decide_False; [now rewrite <- app_assoc| |].
    - intros (r & Hr)%elem_of_prefixes. rewrite <- !app_assoc in Hr.
      apply app_inv_head in Hr. discriminate.
    - intros Heq. rewrite <- !app_assoc in Heq. apply app_inv_head in Heq. discriminate. }
  assert (Hanc1 : existsb (Fs.is_file fs1) (Fs.ancestors (out ++ ["size"])) = false).
  { apply no_file_among. intros a Ha. rewrite ancestors_snoc in Ha.
    apply elem_of_prefixes in Ha as (r & Hr).
    unfold Fs.is_file. rewrite Hfs1, decide_False, decide_True; [reflexivity| |].
    - apply elem_of_prefixes. exists (r ++ ["color"]). now rewrite app_assoc, <- Hr.
    - intros Heq. apply (f_equal length) in Heq. rewrite Hr in Heq.
      rewrite !length_app in Heq. simpl in Heq. lia. }
  unfold M.bind.
  rewrite (write_key_new proc "out/" "size" _ _ (out ++ ["size"]) "size.txt");
    [|reflexivity|reflexivity|exact Hs1|exact Hanc1|exact Hsf1].
  cbn [fs log calls M.ret]. unfold logging_info. eexists. split; [reflexivity|].
  cbn [fs]. split.
  - rewrite lookup_insert_ne, lookup_mkdir_all, decide_False, Hfs1, decide_True.
    + reflexivity.
    + now rewrite <- app_assoc.
    + intros (r & Hr)%elem_of_prefixes. rewrite <- !app_assoc in Hr.
      apply app_inv_head in Hr. discriminate.
    + intros Heq. rewrite <- !app_assoc in Heq. apply app_inv_head in Heq. discriminate.
  - change (out ++ ["size"; "size.txt"]) with (out ++ ["size"] ++ ["size.txt"]).
    rewrite app_assoc, lookup_insert_eq. reflexivity.
Qed.

Lemma generator_length jf max_lines proc files :
  (length (fst (get_generator_from_jsonlines json_loads jf max_lines proc files))
   <= Z.to_nat max_lines)%nat.
Proof.
  unfold get_generator_from_jsonlines.
  destruct jf as [name|]; [|simpl; lia].
  destruct (Fs.read_text _ _ _) as [content|e]; [|simpl; lia].
  pose proof (result_function_length max_lines 0 (Fs.lines content)) as H.
  rewrite Z.sub_0_r in H. apply H. lia.
Qed.

Lemma generator_zero jf proc files :
  fst (get_generator_from_jsonlines json_loads jf 0 proc files) = [].
Proof.
  unfold get_generator_from_jsonlines.
  destruct jf as [name|]; [|reflexivity].
  destruct (Fs.read_text _ _ _) as [content|e]; [|reflexivity].
  now rewrite result_function_zero.
Qed.

(** C10.  The generator yields at most [max_lines] records; what it does
    is decided by the first [max_lines] lines alone, the lines after them
    are never parsed; with [max_lines = 0], the default, it yields nothing.
    [do_prepare] runs it with 10000: replacing the input file by one with
    the same first 10000 lines changes neither the outcome, nor the log,
    nor any other file.  This last part is for files of UTF-8 text, which
    the text layer decodes without error wherever it reads ahead. *)
Theorem jsonlines_generator_is_capped :
  (forall jf max_lines proc files,
     (length (fst (get_generator_from_jsonlines json_loads jf max_lines proc files))
      <= Z.to_nat max_lines)%nat) /\
  (forall max_lines lines,
     result_function json_loads max_lines 0 lines =
     result_function json_loads max_lines 0 (firstn (Z.to_nat max_lines) lines)) /\
  (forall jf proc files,
     fst (get_generator_from_jsonlines json_loads jf 0 proc files) = []) /\
  (forall proc args w p c1 c2,
     fs w !! p = Some (Fs.File c1) ->
     utf8_text c1 = true ->
     utf8_text c2 = true ->
     firstn (Z.to_nat 10000) (Fs.lines c1) = firstn (Z.to_nat 10000) (Fs.lines c2) ->
     let w' := {| fs := <[p := Fs.File c2]> (fs w); log := log w; calls := calls w |} in
     fst (do_prepare json_loads proc args w) = fst (do_prepare json_loads proc args w') /\
     log (snd (do_prepare json_loads proc args w)) =
       log (snd (do_prepare json_loads proc args w')) /\
     forall q, q <> p ->
       fs (snd (do_prepare json_loads proc args w)) !! q =
       fs (snd (do_prepare json_loads proc args w')) !! q).
Proof.
  split; [exact generator_length|].
  split.
  { intros max_lines lines.
    rewrite (result_function_firstn max_lines 0 lines) by lia.
    now rewrite Z.sub_0_r. }
  split; [exact generator_zero|].
  intros proc args w p c1 c2 Hp _ _ Hlines.
  exact (do_prepare_ignores_rest proc args w p c1 c2 Hp Hlines).
Qed.

(** The writing loop over a list that is split in two. *)
Lemma for_each_app {A} (xs ys : list A) (body : A -> M.t world unit) (w : world) :
  M.for_each (xs ++ ys) body w =
  match M.for_each xs body w with
  | (Ok _, w1) => M.for_each ys body w1
  | (Raise e, w1) => (Raise e, w1)
  end.
Proof.
  revert w. induction xs as [|x xs IH]; intros w; simpl; [reflexivity|].
  unfold M.bind. destruct (body x w) as [[[]|e] w1]; [apply IH|reflexivity].
Qed.

(** [os.makedirs] on a directory that is there: the turn of the loop stops
    before it has written anything. *)
Lemma write_key_exists proc out kv w :
  Fs.exists_ (fs w) (Fs.resolve (cwd proc) (directory_of out (fst kv))) = true ->
  write_key proc out kv w = (Raise FileExistsError, w).
Proof.
  intros H. unfold write_key, M.bind, on_fs at 1, Fs.makedirs.
  rewrite H. now destruct w.
Qed.


End PrepareFacts.

(** The grouping of the values by key. *)

Lemma find_key_append_value key k v kvs :
  find_key key (append_value k v kvs) =
  if String.eqb k key then Some (default [] (find_key key kvs) ++ [v])
  else find_key key kvs.
Proof.
  induction kvs as [|[k' vs] rest IH]; simpl.
  - now destruct (String.eqb k key).
  - destruct (String.eqb k' k) eqn:Hk'; simpl.
    + apply String.eqb_eq in Hk' as ->. now destruct (String.eqb k key).
    + destruct (String.eqb k' key) eqn:Hkey; [|exact IH].
      apply String.eqb_eq in Hkey as ->. rewrite String.eqb_sym in Hk'. now rewrite Hk'.
Qed.

Lemma find_key_add_items key items kvs :
  find_key key (add_items kvs items) = grouped (find_key key kvs) (values_of key items).
Proof.
  unfold add_items, values_of. revert kvs.
  induction items as [|[k v] rest IH]; intros kvs; simpl.
  - destruct (find_key key kvs); simpl; [now rewrite app_nil_r|reflexivity].
  - rewrite IH, find_key_append_value.
    destruct (String.eqb k key); simpl; [|reflexivity].
    destruct (find_key key kvs) as [vs|]; simpl.
    + now rewrite <- app_assoc.
    + reflexivity.
Qed.

Lemma grouped_assoc old a b : grouped (grouped old a) b = grouped old (a ++ b).
Proof.
  destruct old as [vs|], a as [|x a], b as [|y b]; simpl;
    rewrite ?app_nil_r, <- ?app_assoc; reflexivity.
Qed.

Lemma values_of_app key p1 p2 : values_of key (p1 ++ p2) = values_of key p1 ++ values_of key p2.
Proof. unfold values_of. now rewrite List.filter_app, map_app. Qed.

Lemma find_key_collect key ds kvs result :
  collect ds kvs = Ok result ->
  find_key key result = grouped (find_key key kvs) (values_of key (pairs_of ds)).
Proof.
  revert kvs. induction ds as [|[items|] rest IH]; intros kvs H; simpl in H.
  - injection H as <-. destruct (find_key key kvs); simpl; [now rewrite app_nil_r|reflexivity].
  - rewrite (IH _ H), find_key_add_items, grouped_assoc.
    unfold pairs_of. simpl. now rewrite values_of_app.
  - discriminate.
Qed.

Lemma keys_append_value k v kvs :
  map fst (append_value k v kvs) =
  if decide (k ∈ map fst kvs) then map fst kvs else map fst kvs ++ [k].
Proof.
  induction kvs as [|[k' vs] rest IH]; cbn [append_value map fst].
  - rewrite decide_False; [reflexivity|apply not_elem_of_nil].
  - destruct (String.eqb k' k) eqn:Hk; cbn [map fst].
    + apply String.eqb_eq in Hk as ->. rewrite decide_True; [reflexivity|].
      apply elem_of_cons. now left.
    + apply String.eqb_neq in Hk. rewrite IH.
      destruct (decide (k ∈ map fst rest)) as [Hin|Hout].
      * rewrite decide_True; [reflexivity|]. apply elem_of_cons. now right.
      * rewrite decide_False; [reflexivity|].
        intros [->|H]%elem_of_cons; [now apply Hk|now apply Hout].
Qed.

Lemma NoDup_append_value k v kvs :
  NoDup (map fst kvs) -> NoDup (map fst (append_value k v kvs)).
Proof.
  intros H. rewrite keys_append_value. case_decide as Hin; [exact H|].
  apply NoDup_app. split; [exact H|]. split.
  - intros x Hx ->%list_elem_of_singleton. now apply Hin.
  - apply NoDup_singleton.
Qed.

Lemma NoDup_add_items items kvs :
  NoDup (map fst kvs) -> NoDup (map fst (add_items kvs items)).
Proof.
  unfold add_items. revert kvs.
  induction items as [|[k v] rest IH]; intros kvs H; simpl; [exact H|].
  apply IH. now apply NoDup_append_value.
Qed.

Lemma NoDup_collect ds kvs result :
  collect ds kvs = Ok result -> NoDup (map fst kvs) -> NoDup (map fst result).
Proof.
  revert kvs. induction ds as [|[items|] rest IH]; intros kvs H Hnd; simpl in H.
  - now injection H as <-.
  - apply (IH _ H). now apply NoDup_add_items.
  - discriminate.
Qed.

(** The in-memory structure of [do_prepare]: every key occurs once, and
    under it stand the values the records have for it, in the order in
    which the records and their items were met. *)
Theorem key_values_group_in_encounter_order dictionaries key_values :
  collect dictionaries [] = Ok key_values ->
  NoDup (map fst key_values) /\
  forall key,
    find_key key key_values =
    match values_of key (pairs_of dictionaries) with
    | [] => None
    | values => Some values
    end.
Proof.
  intros H. split.
  - apply (NoDup_collect _ _ _ H). constructor.
  - intros key. rewrite (find_key_collect key _ _ _ H). simpl.
    now destruct (values_of key (pairs_of dictionaries)).
Qed.

(** ** train *)

Lemma omapM_length {A B} (f : A -> outcome B) (xs : list A) (ys : list B) :
  omapM f xs = Ok ys -> length ys = length xs.
Proof.
  revert ys. induction xs as [|x xs IH]; intros ys H; simpl in H.
  - now injection H as <-.
  - destruct (f x) as [y|e]; simpl in H; [|discriminate].
    destruct (omapM f xs) as [ys'|e]; simpl in H; [|discriminate].
    injection H as <-. simpl. now rewrite (IH ys').
Qed.

Lemma take_indices_length {A B} (indices : list nat) (xs : list A) (ys : list B) :
  length xs = length ys ->
  length (take_indices indices xs) = length (take_indices indices ys).
Proof.
  intros Hlen. unfold take_indices.
  induction indices as [|i rest IH]; simpl; [reflexivity|].
  destruct (xs !! i) as [x|] eqn:Hx, (ys !! i) as [y|] eqn:Hy; simpl.
  - f_equal. exact IH.
  - apply lookup_lt_Some in Hx. apply lookup_ge_None in Hy. lia.
  - apply lookup_ge_None in Hx. apply lookup_lt_Some in Hy. lia.
  - exact IH.
Qed.

Section TrainFacts.
Variable shuffle : nat -> list nat.
Variable pickle_dumps : bunch -> string.

Lemma scan_folders_lengths proc files container_path label folders found :
  scan_folders proc files container_path label folders = Ok found ->
  length (fst found) = length (snd found).
Proof.
  revert label found. induction folders as [|folder rest IH]; intros label found H.
  - simpl in H. now injection H as <-.
  - simpl in H. destruct (Fs.sorted_listdir _ _ _) as [names|e]; simpl in H; [|discriminate].
    destruct (scan_folders _ _ _ _ rest) as [more|e] eqn:Hmore; simpl in H; [|discriminate].
    injection H as <-. simpl.
    rewrite !length_app, length_map, length_replicate. now rewrite (IH _ _ Hmore).
Qed.

(** The data set of [load_files] has one label per document. *)
Lemma load_files_labels proc files container_path b :
  load_files shuffle proc files container_path = Ok b ->
  length (target b) = length (data b).
Proof.
  unfold load_files. intros H.
  destruct (Fs.sorted_listdir _ _ _) as [names|e]; simpl in H; [|discriminate].
  destruct (scan_folders _ _ _ _ _) as [found|e] eqn:Hfound; simpl in H; [|discriminate].
  destruct (omapM _ _) as [contents|e] eqn:Hdata; simpl in H; [|discriminate].
  injection H as <-. simpl.
  rewrite (omapM_length _ _ _ Hdata).
  symmetry. apply take_indices_length. now apply scan_folders_lengths in Hfound.
Qed.

Lemma open_w_result cwd name files f files' :
  Fs.open_w cwd name files = (Ok f, files') ->
  files' = <[f := Fs.File ""]> files.
Proof.
  unfold Fs.open_w. intros H.
  destruct (String.eqb name ""); [discriminate|].
  destruct (Fs.walk _ _); [|discriminate].
  destruct (files !! _) as [[|c]|]; try discriminate;
    destruct (Fs.ends_with_slash name); try discriminate;
    now injection H as <- <-.
Qed.

Lemma open_w_raises cwd name files e files' :
  Fs.open_w cwd name files = (Raise e, files') -> files' = files.
Proof.
  unfold Fs.open_w. intros H.
  destruct (String.eqb name ""); [now injection H|].
  destruct (Fs.walk _ _); [|now injection H].
  destruct (files !! _) as [[|c]|]; try (now injection H);
    destruct (Fs.ends_with_slash name); try discriminate; now injection H.
Qed.

Lemma do_train_eq proc args w :
  do_train shuffle pickle_dumps proc args w =
  match get_configuration proc args with
  | Raise e => (Raise e, w)
  | Ok c =>
      match load_files shuffle proc (fs w) (input_directory c) with
      | Raise e => (Raise e, loading c w)
      | Ok model =>
          match fst (Fs.open_w (cwd proc) (model_file c) (fs w)) with
          | Raise e => (Raise e, loading c w)
          | Ok f => (Ok tt, trained c model (pickle_dumps model) f w)
          end
      end
  end.
Proof.
  unfold do_train, M.bind, M.lift, M.get, common_prolog, logging_info, calling.
  destruct (get_configuration proc args) as [c|e]; [|reflexivity].
  cbn [fs log calls].
  destruct (load_files _ _ _ _) as [model|e]; [|reflexivity].
  unfold on_fs at 1. cbn [fs log calls].
  destruct (Fs.open_w _ _ _) as [[f|e] files'] eqn:Hopen; cbn [fst].
  - apply open_w_result in Hopen as ->.
    unfold on_fs, Fs.fwrite. cbn [fs log calls].
    rewrite lookup_insert_eq. unfold trained.
    cbn [fs log calls]. rewrite insert_insert_eq, append_nil, <- !app_assoc. reflexivity.
  - apply open_w_raises in Hopen as ->. reflexivity.
Qed.

(** C2, as the code has it.  [do_train] looks neither at the number of
    categories nor at the number of documents of a category: whenever
    [load_files] reads the input directory and the model file can be
    opened, it returns and the model file holds the pickled data set.  The
    data set always has one label per document. *)
Theorem train_accepts_any_categories proc args w c model f :
  get_configuration proc args = Ok c ->
  load_files shuffle proc (fs w) (input_directory c) = Ok model ->
  fst (Fs.open_w (cwd proc) (model_file c) (fs w)) = Ok f ->
  do_train shuffle pickle_dumps proc args w
    = (Ok tt, trained c model (pickle_dumps model) f w) /\
  fs (trained c model (pickle_dumps model) f w) !! f
    = Some (Fs.File (pickle_dumps model)) /\
  length (target model) = length (data model).
Proof.
  intros Hc Hmodel Hopen. rewrite do_train_eq, Hc, Hmodel, Hopen.
  split; [reflexivity|]. split.
  - unfold trained. cbn [fs]. apply lookup_insert_eq.
  - exact (load_files_labels _ _ _ _ Hmodel).
Qed.

(** What [do_train] calls: [load_files] and, when that returns and the
    model file opens, [pickle.dump] on the data set it returned. *)
Lemma do_train_calls proc args w :
  let r := do_train shuffle pickle_dumps proc args w in
  exists cs, calls (snd r) = calls w ++ cs /\ existsb is_fit cs = false /\
    (fst r = Ok tt ->
     exists c model f,
       get_configuration proc args = Ok c /\
       load_files shuffle proc (fs w) (input_directory c) = Ok model /\
       cs = [load_files_call (input_directory c);
             pickle_dump_call model (model_file c)] /\
       fs (snd r) !! f = Some (Fs.File (pickle_dumps model))).
Proof.
  cbv zeta. rewrite do_train_eq.
  destruct (get_configuration proc args) as [c|e].
  2:{ exists []. rewrite app_nil_r. repeat split. discriminate. }
  destruct (load_files _ _ _ _) as [model|e] eqn:Hmodel.
  2:{ exists [load_files_call (input_directory c)]. repeat split. discriminate. }
  destruct (fst (Fs.open_w _ _ _)) as [f|e].
  2:{ exists [load_files_call (input_directory c)]. repeat split. discriminate. }
  exists [load_files_call (input_directory c); pickle_dump_call model (model_file c)].
  split; [reflexivity|]. split; [reflexivity|].
  intros _. exists c, model, f.
  split; [reflexivity|]. split; [exact Hmodel|]. split; [reflexivity|].
  unfold trained. cbn [snd fs]. apply lookup_insert_eq.
Qed.
End TrainFacts.

(** ** test-phrase *)

Section TestPhraseFacts.
Variable pickle_loads : string -> outcome pyobject.
Variables vectorizer transformer classifier counts tfidf : Type.
Variable CountVectorizer_fit_transform : list string -> outcome (vectorizer * counts).
Variable TfidfTransformer_fit_transform : counts -> outcome (transformer * tfidf).
Variable MultinomialNB_fit : tfidf -> list nat -> outcome classifier.
Variable CountVectorizer_transform : vectorizer -> list (option string) -> outcome counts.
Variable TfidfTransformer_transform : transformer -> counts -> outcome tfidf.
Variable MultinomialNB_predict : classifier -> tfidf -> outcome (list nat).

Local Abbreviation run :=
  (do_test_phrase pickle_loads CountVectorizer_fit_transform
     TfidfTransformer_fit_transform MultinomialNB_fit CountVectorizer_transform
     TfidfTransformer_transform MultinomialNB_predict).

Lemma report_calls training_set samples predictions w :
  calls (snd (report training_set samples predictions w)) = calls w.
Proof.
  revert predictions w. induction samples as [|s rest IH]; intros predictions w.
  - reflexivity.
  - destruct predictions as [|p predictions]; [reflexivity|].
    cbn [report]. unfold M.bind, M.lift.
    destruct (category_of training_set p) as [name|e]; [|reflexivity].
    unfold logging_info at 1. now rewrite IH.
Qed.

Lemma do_test_phrase_returns proc args w :
  fst (run proc args w) = Ok tt ->
  exists c content training_set training_data training_target,
    get_configuration proc args = Ok c /\
    Fs.read_text (cwd proc) (model_file c) (fs w) = Ok content /\
    pickle_loads content = Ok training_set /\
    attr_data training_set = Some training_data /\
    attr_target training_set = Some training_target /\
    calls (snd (run proc args w)) =
      calls w ++ test_phrase_calls c training_data training_target.
Proof.
  unfold do_test_phrase, M.bind, M.lift, M.get, common_prolog, logging_info, calling.
  destruct (get_configuration proc args) as [c|e]; [|discriminate].
  cbn [fs log calls].
  destruct (Fs.read_text _ _ _) as [content|e] eqn:Hread; [|discriminate].
  destruct (pickle_loads content) as [training_set|e] eqn:Hloads; [|discriminate].
  destruct (attr_data training_set) as [training_data|] eqn:Hdata; [|discriminate].
  cbn [getattr].
  destruct (CountVectorizer_fit_transform training_data) as [[count_vect training_counts]|e];
    [|discriminate].
  cbn [fst snd].
  destruct (TfidfTransformer_fit_transform training_counts)
    as [[tfidf_transformer training_tfidf]|e]; [|discriminate].
  cbn [fst snd].
  destruct (attr_target training_set) as [training_target|] eqn:Htarget; [|discriminate].
  cbn [getattr].
  destruct (MultinomialNB_fit training_tfidf training_target) as [clf|e]; [|discriminate].
  destruct (CountVectorizer_transform count_vect [test_phrase c]) as [sample_counts|e];
    [|discriminate].
  destruct (TfidfTransformer_transform tfidf_transformer sample_counts) as [sample_tfidf|e];
    [|discriminate].
  destruct (MultinomialNB_predict clf sample_tfidf) as [predictions|e]; [|discriminate].
  match goal with
  | |- context [report ?ts ?ss ?ps ?w0] =>
      pose proof (report_calls ts ss ps w0) as Hcalls;
      destruct (report ts ss ps w0) as [[[]|e] w1]
  end; [|discriminate].
  intros _. exists c, content, training_set, training_data, training_target.
  split; [reflexivity|]. split; [exact Hread|]. split; [exact Hloads|].
  split; [exact Hdata|]. split; [exact Htarget|].
  cbn [snd calls] in *. rewrite Hcalls. cbn [calls].
  unfold test_phrase_calls. now rewrite <- !app_assoc.
Qed.

(** An empty phrase does not survive [get_configuration]: [if value:]
    skips it like an option that was not given. *)
Lemma empty_phrase_is_dropped proc args c :
  arg_test_phrase args = Some "" ->
  environ proc !! "SENZING_TEST_PHRASE" = None ->
  get_configuration proc args = Ok c ->
  test_phrase c = None.
Proof.
  unfold get_configuration. intros Harg Henv Hc.
  destruct (ini_file_found proc); [discriminate|].
  injection Hc as <-. cbn [copy_args copy_environ test_phrase configuration_defaults].
  now rewrite Harg, Henv.
Qed.

(** C5 at the empty phrase.  [--test-phrase ""] with no phrase in the
    environment leaves [test_phrase] at [None], and [None] is the sample
    handed to the vectorizer; with a vectorizer that raises on such a
    sample, as [CountVectorizer.transform] does, [do_test_phrase] raises
    and reports no category. *)
Theorem empty_phrase_raises proc args w e :
  arg_test_phrase args = Some "" ->
  environ proc !! "SENZING_TEST_PHRASE" = None ->
  (forall v, CountVectorizer_transform v [None] = Raise e) ->
  (forall c, get_configuration proc args = Ok c -> test_phrase c = None) /\
  (exists e', fst (run proc args w) = Raise e') /\
  (forall text, Message text ∈ log (snd (run proc args w)) -> Message text ∈ log w).
Proof.
  intros Harg Henv Hnone.
  split; [intros c; now apply empty_phrase_is_dropped|].
  unfold do_test_phrase, M.bind, M.lift, M.get, common_prolog, logging_info, calling.
  destruct (get_configuration proc args) as [c|e0] eqn:Hc.
  2:{ split; [now exists e0|]. now intros text. }
  rewrite (empty_phrase_is_dropped proc args c Harg Henv Hc).
  cbn [fs log calls].
  assert (Hlog : forall text, Message text ∈ log w ++ [Enter c] -> Message text ∈ log w).
  { intros text [H|H]%elem_of_app; [exact H|].
    apply list_elem_of_singleton in H. discriminate. }
  assert (Hstop : forall (e' : exception) (w' : world), log w' = log w ++ [Enter c] ->
            (exists e'', fst (@Raise unit e', w') = Raise e'') /\
            (forall text, Message text ∈ log (snd (@Raise unit e', w')) ->
                          Message text ∈ log w)).
  { intros e' w' Hw'. split; [now exists e'|]. cbn [snd]. now rewrite Hw'. }
  destruct (Fs.read_text _ _ _) as [content|e0]; [|now apply Hstop].
  destruct (pickle_loads content) as [training_set|e0]; [|now apply Hstop].
  destruct (attr_data training_set) as [training_data|]; [|now apply Hstop].
  cbn [getattr].
  destruct (CountVectorizer_fit_transform training_data) as [[count_vect training_counts]|e0];
    [|now apply Hstop].
  cbn [fst snd].
  destruct (TfidfTransformer_fit_transform training_counts)
    as [[tfidf_transformer training_tfidf]|e0]; [|now apply Hstop].
  cbn [fst snd].
  destruct (attr_target training_set) as [training_target|]; [|now apply Hstop].
  cbn [getattr].
  destruct (MultinomialNB_fit training_tfidf training_target) as [clf|e0];
    [|now apply Hstop].
  rewrite Hnone. now apply Hstop.
Qed.
End TestPhraseFacts.

(** C1, as the code has it.  [do_train] fits nothing: it calls
    [load_files] and [pickle.dump], and what it pickles into the model file
    is the data set [load_files] returned.  [do_test_phrase], whenever it
    returns, has unpickled the model file and then fitted the vectorizer,
    the TF-IDF transformer and the classifier on it before predicting. *)
Theorem train_pickles_the_data_set_and_test_phrase_fits :
  (forall shuffle pickle_dumps proc args w,
     let r := do_train shuffle pickle_dumps proc args w in
     exists cs, calls (snd r) = calls w ++ cs /\ existsb is_fit cs = false /\
       (fst r = Ok tt ->
        exists c model f,
          get_configuration proc args = Ok c /\
          load_files shuffle proc (fs w) (input_directory c) = Ok model /\
          cs = [load_files_call (input_directory c);
                pickle_dump_call model (model_file c)] /\
          fs (snd r) !! f = Some (Fs.File (pickle_dumps model)))) /\
  (forall pickle_loads (vectorizer transformer classifier counts tfidf : Type)
          (CountVectorizer_fit_transform : list string -> outcome (vectorizer * counts))
          (TfidfTransformer_fit_transform : counts -> outcome (transformer * tfidf))
          (MultinomialNB_fit : tfidf -> list nat -> outcome classifier)
          (CountVectorizer_transform : vectorizer -> list (option string) -> outcome counts)
          (TfidfTransformer_transform : transformer -> counts -> outcome tfidf)
          (MultinomialNB_predict : classifier -> tfidf -> outcome (list nat))
          proc args w,
     let r := do_test_phrase pickle_loads CountVectorizer_fit_transform
                TfidfTransformer_fit_transform MultinomialNB_fit
                CountVectorizer_transform TfidfTransformer_transform
                MultinomialNB_predict proc args w in
     fst r = Ok tt ->
     exists c content training_set training_data training_target,
       get_configuration proc args = Ok c /\
       Fs.read_text (cwd proc) (model_file c) (fs w) = Ok content /\
       pickle_loads content = Ok training_set /\
       attr_data training_set = Some training_data /\
       attr_target training_set = Some training_target /\
       calls (snd r) = calls w ++ test_phrase_calls c training_data training_target /\
       List.filter is_fit (test_phrase_calls c training_data training_target) =
         [CountVectorizer_fit_transform_call training_data;
          TfidfTransformer_fit_transform_call;
          MultinomialNB_fit_call training_target]).
Proof.
  split.
  - intros shuffle pickle_dumps proc args w. apply do_train_calls.
  - intros pickle_loads vectorizer transformer classifier counts tfidf
      fit_counts fit_tfidf fit_clf transform_counts transform_tfidf predict
      proc args w r Hr.
    destruct (do_test_phrase_returns pickle_loads _ _ _ _ _ fit_counts fit_tfidf
                fit_clf transform_counts transform_tfidf predict proc args w Hr)
      as (c & content & ts & d & t & Hc & Hread & Hloads & Hd & Ht & Hcalls).
    exists c, content, ts, d, t. repeat (split; [assumption|]).
    reflexivity.
Qed.


(** ** prepare: what stops it before it writes *)

Lemma collect_nondict ds kvs : NonDict ∈ ds -> collect ds kvs = Raise AttributeError.
Proof.
  revert kvs. induction ds as [|[items|] rest IH]; intros kvs Hin.
  - now apply elem_of_nil in Hin.
  - apply elem_of_cons in Hin as [Hin|Hin]; [discriminate|]. simpl. now apply IH.
  - reflexivity.
Qed.

Lemma collect_raises ds kvs e : collect ds kvs = Raise e -> e = AttributeError.
Proof.
  revert kvs. induction ds as [|[items|] rest IH]; intros kvs; simpl.
  - discriminate.
  - apply IH.
  - now intros [= <-].
Qed.

Section PrepareInput.
Variable json_loads : string -> outcome parsed.

Lemma result_function_bad max_lines lines : forall counter (i : nat) line,
  0 <= counter ->
  lines !! i = Some line ->
  counter + Z.of_nat i + 1 <= max_lines ->
  (exists e, json_loads line = Raise e) \/ json_loads line = Ok NonDict ->
  NonDict ∈ fst (result_function json_loads max_lines counter lines) \/
  exists e (j : nat) l,
    lines !! j = Some l /\ json_loads l = Raise e /\
    snd (result_function json_loads max_lines counter lines) = Threw e.
Proof.
  induction lines as [|l rest IH]; intros counter i line Hc Hi Hmax Hbad.
  - discriminate.
  - cbn [result_function].
    assert (negb (max_lines =? 0) && (counter + 1 <=? max_lines) = true) as ->.
    { apply andb_true_iff. split; [apply negb_true_iff, Z.eqb_neq|apply Z.leb_le]; lia. }
    destruct i as [|i].
    + injection Hi as ->. destruct Hbad as [[e He] | He]; rewrite He.
      * right. exists e, 0%nat, line. now repeat split.
      * destruct (result_function _ _ _ rest). left. cbn [fst].
        apply elem_of_cons. now left.
    + destruct (json_loads l) as [d|e] eqn:Hl.
      2:{ right. exists e, 0%nat, l. now repeat split. }
      specialize (IH (counter + 1) i line ltac:(lia) Hi ltac:(lia) Hbad).
      destruct (result_function _ _ _ rest) as [ds fin]. cbn [fst snd] in *.
      destruct IH as [IH|(e & j & l' & Hj & He & Hfin)].
      * left. apply elem_of_cons. now right.
      * right. exists e, (S j), l'. now repeat split.
Qed.

(** A line on which [json.loads] raises, or which is JSON but no object,
    anywhere in the first 10000 lines of an input of UTF-8 text:
    [do_prepare] raises, with the exception of [json.loads] on one of
    the lines or with [AttributeError], and has written nothing. *)
Theorem prepare_with_a_bad_line_writes_nothing proc args w c name content (i : nat) line :
  get_configuration proc args = Ok c ->
  jsonlines_file c = Some name ->
  plain_path name = true ->
  Fs.read_text (cwd proc) name (fs w) = Ok content ->
  utf8_text content = true ->
  Fs.lines content !! i = Some line ->
  Z.of_nat i < 10000 ->
  (exists e, json_loads line = Raise e) \/ json_loads line = Ok NonDict ->
  exists e,
    (e = AttributeError \/
     exists (j : nat) l, Fs.lines content !! j = Some l /\ json_loads l = Raise e) /\
    do_prepare json_loads proc args w = (Raise e, entered c w) /\
    fs (snd (do_prepare json_loads proc args w)) = fs w.
Proof.
  intros Hc Hname Hplain Hread Hascii Hline Hi Hbad.
  rewrite do_prepare_eq, Hc. unfold get_generator_from_jsonlines.
  rewrite Hname, Hread. unfold build_key_values.
  pose proof (result_function_bad 10000 _ 0 i line ltac:(lia) Hline ltac:(lia) Hbad) as H.
  destruct (result_function _ _ _ _) as [ds fin]. cbn [fst snd] in *.
  destruct (collect ds []) as [kvs|e] eqn:Hcollect.
  - destruct H as [H|(e & j & l & Hj & He & ->)];
      [now rewrite (collect_nondict _ _ H) in Hcollect|].
    exists e. split; [right; now exists j, l|]. auto.
  - apply collect_raises in Hcollect as ->. exists AttributeError. auto.
Qed.

(** Without a file to read, [do_prepare] raises before it writes:
    [TypeError] when no file name is configured, the error of [open]
    when the file cannot be read. *)
Theorem prepare_needs_a_readable_file proc args w c e :
  get_configuration proc args = Ok c ->
  match jsonlines_file c with
  | None => e = TypeError
  | Some name => Fs.read_text (cwd proc) name (fs w) = Raise e
  end ->
  do_prepare json_loads proc args w = (Raise e, entered c w) /\
  fs (snd (do_prepare json_loads proc args w)) = fs w.
Proof.
  intros Hc He. rewrite do_prepare_eq, Hc. unfold get_generator_from_jsonlines.
  destruct (jsonlines_file c) as [name|]; [rewrite He|subst e]; now split.
Qed.
End PrepareInput.

(** ** prepare: plain keys *)

Lemma well_formed_spec (files : Fs.t) :
  well_formed files = true <->
  forall p n, files !! p = Some n ->
    forall a, a ∈ Fs.ancestors p -> files !! a = Some Fs.Dir.
Proof.
  unfold well_formed. rewrite forallb_forall. split.
  - intros H p n Hp a Ha.
    apply elem_of_map_to_list, list_elem_of_In, H in Hp. cbn [fst] in Hp.
    rewrite forallb_forall in Hp. apply list_elem_of_In, Hp in Ha.
    now destruct (files !! a) as [[|]|].
  - intros H [p n] Hp. apply list_elem_of_In, elem_of_map_to_list in Hp. cbn [fst].
    apply forallb_forall. intros a Ha. apply list_elem_of_In in Ha.
    now rewrite (H p n Hp a Ha).
Qed.

Lemma split_from_app sep cur a b :
  Fs.split_from sep cur (a +:+ String sep b) =
  Fs.split_from sep cur a ++ Fs.split_from sep "" b.
Proof.
  revert cur. induction a as [|c a IH]; intros cur.
  - rewrite append_nil. cbn [Fs.split_from]. now rewrite Ascii.eqb_refl.
  - rewrite append_cons. cbn [Fs.split_from].
    destruct (Ascii.eqb c sep); now rewrite IH.
Qed.

Lemma split_from_plain cur s :
  plain_characters s = true -> Fs.split_from "/" cur s = [cur +:+ s].
Proof.
  revert cur. induction s as [|c s IH]; intros cur H.
  - cbn [Fs.split_from]. now rewrite string_app_empty_r.
  - cbn [plain_characters] in H. apply andb_true_iff in H as [H Hs].
    apply andb_true_iff in H as [H _]. apply andb_true_iff in H as [H _].
    apply negb_true_iff in H. cbn [Fs.split_from]. rewrite H, IH by exact Hs.
    now rewrite string_app_assoc, append_cons, append_nil.
Qed.

Lemma is_absolute_app a b : a <> "" -> Fs.is_absolute (a +:+ b) = Fs.is_absolute a.
Proof. destruct a; [congruence|]. now rewrite append_cons. Qed.

(** Resolving [a/b] is resolving [a] and then walking [b]. *)
Lemma resolve_slash cwd a b :
  a <> "" ->
  Fs.resolve cwd (a +:+ "/" +:+ b) =
  fold_left Fs.enter (Fs.split "/" b) (Fs.resolve cwd a).
Proof.
  intros Ha. unfold Fs.resolve, Fs.split.
  change ("/" +:+ b) with (String "/" b).
  now rewrite split_from_app, fold_left_app, is_absolute_app.
Qed.

Lemma resolve_entry cwd a b :
  a <> "" -> plain_key b = true ->
  Fs.resolve cwd (a +:+ "/" +:+ b) = Fs.resolve cwd a ++ [b].
Proof.
  intros Ha Hb. rewrite resolve_slash by exact Ha.
  unfold plain_key in Hb. repeat (apply andb_true_iff in Hb as [Hb ?]).
  unfold Fs.split. rewrite split_from_plain, append_nil by assumption.
  cbn [fold_left]. unfold Fs.enter.
  apply negb_true_iff in Hb. rewrite Hb.
  repeat match goal with H : negb _ = true |- _ => apply negb_true_iff in H; rewrite H end.
  reflexivity.
Qed.

Lemma lower_ascii_plain c :
  negb (Ascii.eqb c "/") && negb (Ascii.eqb c "000") && (N_of_ascii c <? 128)%N = true ->
  negb (Ascii.eqb (lower_ascii c) "/") && negb (Ascii.eqb (lower_ascii c) "000")
  && (N_of_ascii (lower_ascii c) <? 128)%N = true /\
  (lower_ascii c = "."%char -> c = "."%char).
Proof.
  destruct c as [[] [] [] [] [] [] [] []]; vm_compute; intros H; split;
    solve [reflexivity | discriminate].
Qed.

Lemma plain_characters_lower s : plain_characters s = true -> plain_characters (lower s) = true.
Proof.
  induction s as [|c s IH]; [reflexivity|]. cbn [plain_characters lower].
  intros [Hc Hs]%andb_true_iff.
  now rewrite (proj1 (lower_ascii_plain c Hc)), IH.
Qed.

Lemma lower_ascii_dot c : lower_ascii c = "."%char -> c = "."%char.
Proof.
  destruct c as [[] [] [] [] [] [] [] []]; vm_compute; intros H;
    solve [reflexivity | discriminate].
Qed.

Lemma lower_not_name s : lower s = "" \/ lower s = "." \/ lower s = ".." -> lower s = s.
Proof.
  destruct s as [|c1 [|c2 [|c3 s]]]; cbn [lower]; intros [H|[H|H]]; try discriminate;
    try reflexivity.
  - injection H as H. now rewrite (lower_ascii_dot _ H).
  - injection H as H1 H2. now rewrite (lower_ascii_dot _ H1), (lower_ascii_dot _ H2).
Qed.

Lemma plain_key_lower key : plain_key key = true -> plain_key (lower key) = true.
Proof.
  unfold plain_key. intros H. repeat (apply andb_true_iff in H as [H ?]).
  rewrite plain_characters_lower by assumption.
  repeat match goal with H : negb _ = true |- _ =>
    apply negb_true_iff, String.eqb_neq in H end.
  assert (forall x, (x = "" \/ x = "." \/ x = "..") -> String.eqb (lower key) x = false) as Hx.
  { intros x Hx. apply String.eqb_neq. intros E.
    assert (lower key = key) as Hl by (apply lower_not_name; rewrite E; exact Hx).
    rewrite Hl in E. destruct Hx as [-> | [-> | ->]]; contradiction. }
  rewrite !Hx by auto. reflexivity.
Qed.

Lemma plain_characters_app s t :
  plain_characters (s +:+ t) = plain_characters s && plain_characters t.
Proof.
  induction s as [|c s IH]; [now rewrite append_nil|].
  rewrite append_cons. cbn [plain_characters]. rewrite IH. now rewrite andb_assoc.
Qed.

Lemma plain_key_txt key : plain_characters key = true -> plain_key (key +:+ ".txt") = true.
Proof.
  intros H. unfold plain_key. rewrite plain_characters_app, H.
  destruct key as [|c1 [|c2 [|c3 key]]]; rewrite ?append_cons, ?append_nil; try reflexivity.
  - assert (String.eqb (String c1 ".txt") "." = false) as ->
      by (apply String.eqb_neq; discriminate).
    assert (String.eqb (String c1 ".txt") ".." = false) as ->
      by (apply String.eqb_neq; discriminate).
    reflexivity.
  - assert (String.eqb (String c1 (String c2 ".txt")) "." = false) as ->
      by (apply String.eqb_neq; discriminate).
    assert (String.eqb (String c1 (String c2 ".txt")) ".." = false) as ->
      by (apply String.eqb_neq; discriminate).
    reflexivity.
  - assert (forall s, String.eqb (String c1 (String c2 (String c3 s))) "." = false) as ->
      by (intros; apply String.eqb_neq; discriminate).
    assert (forall s, String.eqb (String c1 (String c2 (String c3 s))) ".." = false) as ->
      by (intros; apply String.eqb_neq; discriminate).
    reflexivity.
Qed.

Lemma plain_key_characters key : plain_key key = true -> plain_characters key = true.
Proof. unfold plain_key. now intros [_ H]%andb_true_iff. Qed.

Lemma directory_of_not_empty out key : directory_of out key <> "".
Proof.
  unfold directory_of. destruct out; [rewrite append_nil|rewrite append_cons]; discriminate.
Qed.

Lemma resolve_directory_of cwd out key :
  out <> "" -> plain_key key = true ->
  Fs.resolve cwd (directory_of out key) = Fs.resolve cwd out ++ [lower key].
Proof.
  intros Hout Hkey. unfold directory_of.
  apply resolve_entry; [exact Hout|now apply plain_key_lower].
Qed.

Lemma resolve_filename_of cwd out key :
  out <> "" -> plain_key key = true ->
  Fs.resolve cwd (filename_of out key) =
  (Fs.resolve cwd out ++ [lower key]) ++ [key +:+ ".txt"].
Proof.
  intros Hout Hkey. unfold filename_of.
  rewrite resolve_entry.
  - now rewrite resolve_directory_of.
  - apply directory_of_not_empty.
  - now apply plain_key_txt, plain_key_characters.
Qed.

Lemma lookup_written (files : Fs.t) (d : Fs.path) (n : string) (c : string) (q : Fs.path) :
  <[d ++ [n] := Fs.File c]> (Fs.mkdir_all files (Fs.ancestors d ++ [d])) !! q =
  if decide (d ++ [n] = q) then Some (Fs.File c)
  else if decide (q ∈ Fs.ancestors d ++ [d]) then Some Fs.Dir else files !! q.
Proof. now rewrite lookup_insert, lookup_mkdir_all. Qed.

Lemma prefix_not_longer (d q : Fs.path) (n : string) :
  q ∈ Fs.ancestors d ++ [d] -> d ++ [n] <> q.
Proof.
  intros (r & ->)%elem_of_prefixes Heq. apply (f_equal length) in Heq.
  rewrite !length_app in Heq. simpl in Heq. lia.
Qed.

Lemma proper_prefix_snoc (a d r : Fs.path) (n : string) :
  r <> [] -> d ++ [n] = a ++ r -> a ∈ Fs.ancestors d ++ [d].
Proof.
  intros Hr Heq. apply elem_of_prefixes.
  destruct (exists_last Hr) as (r' & l & ->).
  rewrite app_assoc in Heq. apply app_inj_tail in Heq as [-> _]. now exists r'.
Qed.

Lemma no_file_dir (files : Fs.t) (dirs : list Fs.path) (a : Fs.path) n :
  existsb (Fs.is_file files) dirs = false -> a ∈ dirs -> files !! a = Some n -> n = Fs.Dir.
Proof.
  intros Hno Ha Hn. destruct n as [|c]; [reflexivity|].
  assert (existsb (Fs.is_file files) dirs = true) as Hyes; [|congruence].
  apply existsb_exists. exists a. split; [now apply list_elem_of_In|].
  unfold Fs.is_file. now rewrite Hn.
Qed.

(** Below a directory that does not exist nothing exists. *)
Lemma well_formed_below (files : Fs.t) (d : Fs.path) (n : string) :
  well_formed files = true -> files !! d = None -> files !! (d ++ [n]) = None.
Proof.
  intros Hwf Hd. destruct (files !! (d ++ [n])) as [x|] eqn:E; [|reflexivity].
  rewrite well_formed_spec in Hwf.
  rewrite (Hwf _ _ E d) in Hd; [discriminate|].
  rewrite ancestors_snoc. apply elem_of_app. right. now apply list_elem_of_singleton.
Qed.

Lemma well_formed_written (files : Fs.t) (d : Fs.path) (n c : string) :
  well_formed files = true ->
  files !! d = None ->
  existsb (Fs.is_file files) (Fs.ancestors d) = false ->
  well_formed (<[d ++ [n] := Fs.File c]> (Fs.mkdir_all files (Fs.ancestors d ++ [d]))) = true.
Proof.
  intros Hwf Hd Hno. pose proof (well_formed_below _ _ n Hwf Hd) as Hf.
  rewrite well_formed_spec in Hwf. apply well_formed_spec.
  intros p x Hp a Ha. rewrite lookup_written in Hp. rewrite lookup_written.
  apply elem_of_ancestors in Ha as (r & Hr & ->).
  destruct (decide (d ++ [n] = a ++ r)) as [Heq|Hne].
  - pose proof (proper_prefix_snoc _ _ _ _ Hr Heq) as Hin.
    rewrite decide_False by now apply prefix_not_longer.
    now rewrite decide_True.
  - destruct (decide (a ++ r ∈ Fs.ancestors d ++ [d])) as [Hin|Hnin].
    + apply elem_of_prefixes in Hin as (r1 & Hr1).
      assert (a ∈ Fs.ancestors d ++ [d]) as Hin.
      { apply elem_of_prefixes. exists (r ++ r1). now rewrite app_assoc. }
      rewrite decide_False by now apply prefix_not_longer.
      now rewrite decide_True.
    + rewrite decide_False in Hp by exact Hnin.
      assert (files !! a = Some Fs.Dir) as Hdir.
      { apply (Hwf _ _ Hp). apply elem_of_ancestors. now exists r. }
      destruct (decide (d ++ [n] = a)) as [Heq|_].
      { unfold Fs.path in *. rewrite <- Heq, Hf in Hdir. discriminate. }
      now destruct (decide (a ∈ Fs.ancestors d ++ [d])).
Qed.

(** What is there stays as it is when a fresh directory and its file
    are written. *)
Lemma written_keeps (files : Fs.t) (d : Fs.path) (n c : string) (q : Fs.path) x :
  well_formed files = true ->
  files !! d = None ->
  existsb (Fs.is_file files) (Fs.ancestors d) = false ->
  files !! q = Some x ->
  <[d ++ [n] := Fs.File c]> (Fs.mkdir_all files (Fs.ancestors d ++ [d])) !! q = Some x.
Proof.
  intros Hwf Hd Hno Hq. rewrite lookup_written.
  destruct (decide (d ++ [n] = q)) as [<-|_].
  { pose proof (well_formed_below _ _ n Hwf Hd) as Hf. unfold Fs.path in *. congruence. }
  destruct (decide (q ∈ Fs.ancestors d ++ [d])) as [Hin|_]; [|exact Hq].
  apply elem_of_app in Hin as [Hin|Hin].
  - now rewrite (no_file_dir _ _ _ _ Hno Hin Hq).
  - apply list_elem_of_singleton in Hin. unfold Fs.path in *. congruence.
Qed.

Section Write.
Variable proc : process.
Variable out : string.
Hypothesis out_not_empty : out <> "".

Local Abbreviation o := (Fs.resolve (cwd proc) out).

Lemma write_plain_key key values w :
  plain_key key = true ->
  well_formed (fs w) = true ->
  fs w !! (o ++ [lower key]) = None ->
  existsb (Fs.is_file (fs w)) (Fs.ancestors o ++ [o]) = false ->
  write_key proc out (key, values) w =
  (Ok tt, {| fs := <[(o ++ [lower key]) ++ [key +:+ ".txt"] := Fs.File (file_content values)]>
                     (Fs.mkdir_all (fs w)
                        (Fs.ancestors (o ++ [lower key]) ++ [o ++ [lower key]]));
             log := log w; calls := calls w |}).
Proof.
  intros Hkey Hwf Hd Hno.
  apply write_key_new.
  - now apply resolve_directory_of.
  - now apply resolve_filename_of.
  - exact Hd.
  - now rewrite ancestors_snoc.
  - now apply well_formed_below.
Qed.

Lemma write_key_stopped key values w :
  plain_key key = true ->
  Fs.exists_ (fs w) (o ++ [lower key]) = true \/
  existsb (Fs.is_file (fs w)) (Fs.ancestors o ++ [o]) = true ->
  exists e, write_key proc out (key, values) w = (Raise e, w).
Proof.
  intros Hkey H.
  destruct (Fs.exists_ (fs w) (o ++ [lower key])) eqn:E.
  - exists FileExistsError. apply write_key_exists. cbn [fst].
    now rewrite resolve_directory_of.
  - destruct H as [H|H]; [discriminate|]. exists NotADirectoryError.
    unfold write_key, M.bind, on_fs at 1, Fs.makedirs. cbn [fst snd].
    rewrite resolve_directory_of, ancestors_snoc, E, H by assumption.
    now destruct w.
Qed.
End Write.

Lemma assign_not_empty current value : current <> "" -> assign current value <> "".
Proof.
  unfold assign, truthy. destruct value as [s|]; [|easy].
  destruct (String.eqb s "") eqn:E; [easy|]. intros _. now apply String.eqb_neq.
Qed.

Lemma output_directory_not_empty proc args c :
  get_configuration proc args = Ok c -> output_directory c <> "".
Proof.
  unfold get_configuration. destruct (ini_file_found proc); [discriminate|].
  intros [= <-]. cbn [copy_args copy_environ output_directory].
  repeat apply assign_not_empty. discriminate.
Qed.

Lemma for_each_cons {A} (x : A) (xs : list A) (body : A -> M.t world unit) (w : world) :
  M.for_each (x :: xs) body w =
  match body x w with
  | (Ok _, w1) => M.for_each xs body w1
  | (Raise e, w1) => (Raise e, w1)
  end.
Proof. reflexivity. Qed.

Lemma exists_false (files : Fs.t) (p : Fs.path) :
  Fs.exists_ files p = false -> files !! p = None.
Proof. unfold Fs.exists_. now destruct (files !! p). Qed.

Section Keep.
Variable proc : process.
Variable out : string.
Hypothesis out_not_empty : out <> "".

Local Abbreviation o := (Fs.resolve (cwd proc) out).

Lemma write_plain_key_keeps key values w :
  plain_key key = true ->
  well_formed (fs w) = true ->
  well_formed (fs (snd (write_key proc out (key, values) w))) = true /\
  forall q x, fs w !! q = Some x ->
    fs (snd (write_key proc out (key, values) w)) !! q = Some x.
Proof.
  intros Hkey Hwf.
  destruct (Fs.exists_ (fs w) (o ++ [lower key])) eqn:E.
  { destruct (write_key_stopped proc out out_not_empty key values w Hkey) as [e ->]; auto. }
  destruct (existsb (Fs.is_file (fs w)) (Fs.ancestors o ++ [o])) eqn:E2.
  { destruct (write_key_stopped proc out out_not_empty key values w Hkey) as [e ->]; auto. }
  apply exists_false in E.
  rewrite write_plain_key by assumption. cbn [snd fs].
  rewrite <- (ancestors_snoc o (lower key)) in E2. split.
  - now apply (well_formed_written (fs w) (o ++ [lower key]) (key +:+ ".txt")
                 (file_content values)).
  - intros q x Hq.
    now apply (written_keeps (fs w) (o ++ [lower key]) (key +:+ ".txt")
                 (file_content values)).
Qed.

Lemma for_each_keeps kvs : forall w,
  Forall (fun kv => plain_key (fst kv) = true) kvs ->
  well_formed (fs w) = true ->
  forall q x, fs w !! q = Some x ->
    fs (snd (M.for_each kvs (write_key proc out) w)) !! q = Some x.
Proof.
  induction kvs as [|[key values] rest IH]; intros w Hplain Hwf q x Hq; [exact Hq|].
  apply Forall_cons in Hplain as [Hkey Hrest]. cbn [fst] in Hkey.
  rewrite for_each_cons.
  destruct (write_plain_key_keeps key values w Hkey Hwf) as [Hwf1 Hkeep].
  destruct (write_key proc out (key, values) w) as [[[]|e] w1]; cbn [snd] in *.
  - apply IH; auto.
  - auto.
Qed.
End Keep.

Section PrepareKeeps.
Variable json_loads : string -> outcome parsed.

(** [do_prepare] adds to the file system and changes nothing in it:
    whatever was there before is there afterwards, as it was. *)
Theorem prepare_keeps_what_exists proc args w q x :
  well_formed (fs w) = true ->
  (forall c key_values,
     get_configuration proc args = Ok c ->
     build_key_values
       (get_generator_from_jsonlines json_loads (jsonlines_file c) 10000 proc (fs w))
       = Ok key_values ->
     Forall (fun kv => plain_key (fst kv) = true) key_values) ->
  fs w !! q = Some x ->
  fs (snd (do_prepare json_loads proc args w)) !! q = Some x.
Proof.
  intros Hwf Hplain Hq. rewrite do_prepare_eq.
  destruct (get_configuration proc args) as [c|e] eqn:Hc; [|exact Hq].
  destruct (build_key_values _) as [key_values|e] eqn:Hkvs; [|exact Hq].
  specialize (Hplain c key_values eq_refl Hkvs).
  pose proof (for_each_keeps proc (output_directory c)
                (output_directory_not_empty _ _ _ Hc) key_values (entered c w)
                Hplain Hwf q x Hq) as H.
  unfold M.bind, logging_info.
  destruct (M.for_each _ _ _) as [[[]|e] w1]; exact H.
Qed.
End PrepareKeeps.

(** ** Keys that differ in case *)

Lemma mkdir_all_grows (files : Fs.t) ps p :
  Fs.exists_ files p = true -> Fs.exists_ (Fs.mkdir_all files ps) p = true.
Proof.
  unfold Fs.exists_. rewrite lookup_mkdir_all.
  now destruct (decide (p ∈ ps)).
Qed.

Lemma insert_grows (files : Fs.t) f x p :
  Fs.exists_ files p = true -> Fs.exists_ (<[f := x]> files) p = true.
Proof.
  unfold Fs.exists_. destruct (decide (f = p)) as [->|Hne].
  - now rewrite lookup_insert_eq.
  - now rewrite lookup_insert_ne.
Qed.

Lemma makedirs_grows cwd name files p :
  Fs.exists_ files p = true -> Fs.exists_ (snd (Fs.makedirs cwd name files)) p = true.
Proof.
  intros H. unfold Fs.makedirs.
  repeat case_match; cbn [snd]; auto using mkdir_all_grows.
Qed.

Lemma open_w_grows cwd name files p :
  Fs.exists_ files p = true -> Fs.exists_ (snd (Fs.open_w cwd name files)) p = true.
Proof.
  intros H. unfold Fs.open_w.
  repeat case_match; cbn [snd]; auto using insert_grows.
Qed.

Lemma fwrite_grows f text files p :
  Fs.exists_ files p = true -> Fs.exists_ (snd (Fs.fwrite f text files)) p = true.
Proof.
  intros H. unfold Fs.fwrite.
  repeat case_match; cbn [snd]; auto using insert_grows.
Qed.

Lemma for_each_fwrite_grows f (values : list value) w p :
  Fs.exists_ (fs w) p = true ->
  Fs.exists_ (fs (snd (M.for_each values
    (fun v => on_fs (Fs.fwrite f (format_value v +:+ newline))) w))) p = true.
Proof.
  revert w. induction values as [|v rest IH]; intros w H; [exact H|].
  rewrite for_each_cons. unfold on_fs at 1.
  pose proof (fwrite_grows f (format_value v +:+ newline) (fs w) p H) as H1.
  destruct (Fs.fwrite _ _ _) as [[[]|e] files1]; cbn [snd] in *.
  - now apply IH.
  - exact H1.
Qed.

Lemma write_key_grows proc out kv w p :
  Fs.exists_ (fs w) p = true ->
  Fs.exists_ (fs (snd (write_key proc out kv w))) p = true.
Proof.
  intros H. unfold write_key, M.bind, on_fs at 1.
  pose proof (makedirs_grows (cwd proc) (directory_of out (fst kv)) (fs w) p H) as H1.
  destruct (Fs.makedirs _ _ _) as [[[]|e] files1]; cbn [snd] in *; [|exact H1].
  unfold on_fs at 1. cbn [fs].
  pose proof (open_w_grows (cwd proc) (filename_of out (fst kv)) files1 p H1) as H2.
  destruct (Fs.open_w _ _ _) as [[f|e] files2]; cbn [snd] in *; [|exact H2].
  now apply for_each_fwrite_grows.
Qed.

Lemma for_each_write_key_grows proc out kvs w p :
  Fs.exists_ (fs w) p = true ->
  Fs.exists_ (fs (snd (M.for_each kvs (write_key proc out) w))) p = true.
Proof.
  revert w. induction kvs as [|kv rest IH]; intros w H; [exact H|].
  rewrite for_each_cons.
  pose proof (write_key_grows proc out kv w p H) as H1.
  destruct (write_key proc out kv w) as [[[]|e] w1]; cbn [snd] in *.
  - now apply IH.
  - exact H1.
Qed.

(** After [write_key] has returned, the directory of the key exists. *)
Lemma write_key_leaves_directory proc out kv w w1 :
  write_key proc out kv w = (Ok tt, w1) ->
  Fs.exists_ (fs w1) (Fs.resolve (cwd proc) (directory_of out (fst kv))) = true.
Proof.
  unfold write_key, M.bind, on_fs at 1, Fs.makedirs.
  destruct (Fs.exists_ (fs w) _); [discriminate|].
  destruct (existsb _ _); [discriminate|].
  set (d := Fs.resolve (cwd proc) (directory_of out (fst kv))).
  set (files1 := Fs.mkdir_all (fs w) (Fs.ancestors d ++ [d])).
  assert (Fs.exists_ files1 d = true) as H1.
  { unfold Fs.exists_, files1. rewrite lookup_mkdir_all, decide_True; [reflexivity|].
    apply elem_of_app. right. now apply list_elem_of_singleton. }
  unfold on_fs at 1. cbn [fs].
  pose proof (open_w_grows (cwd proc) (filename_of out (fst kv)) files1 d H1) as H2.
  destruct (Fs.open_w _ _ _) as [[f|e] files2]; cbn [snd] in *; [|discriminate].
  intros Hrun.
  match type of Hrun with
  | M.for_each _ _ ?w2 = _ => pose proof (for_each_fwrite_grows f (snd kv) w2 d H2) as H3
  end.
  now rewrite Hrun in H3.
Qed.

Lemma for_each_collision proc out before kv1 between kv2 after w :
  lower (fst kv1) = lower (fst kv2) ->
  exists e w',
    M.for_each (before ++ kv1 :: between ++ kv2 :: after) (write_key proc out) w
    = (Raise e, w').
Proof.
  intros Hlower. rewrite for_each_app.
  destruct (M.for_each before _ w) as [[[]|e] w0]; [|now exists e, w0].
  rewrite for_each_cons.
  destruct (write_key proc out kv1 w0) as [[[]|e] w1] eqn:H1; [|now exists e, w1].
  apply write_key_leaves_directory in H1.
  rewrite for_each_app.
  pose proof (for_each_write_key_grows proc out between w1 _ H1) as H2.
  destruct (M.for_each between _ w1) as [[[]|e] w2]; [|now exists e, w2].
  cbn [snd] in H2. rewrite for_each_cons.
  rewrite write_key_exists; [now exists FileExistsError, w2|].
  unfold directory_of in *. now rewrite <- Hlower.
Qed.

Section Collision.
Variable json_loads : string -> outcome parsed.

(** Two keys of ASCII characters that differ only in the case of their
    letters share one output directory; [do_prepare] cannot return
    normally then. *)
Theorem keys_that_differ_in_case_stop_prepare proc args w c key_values (i j : nat) kv1 kv2 :
  get_configuration proc args = Ok c ->
  build_key_values
    (get_generator_from_jsonlines json_loads (jsonlines_file c) 10000 proc (fs w))
    = Ok key_values ->
  key_values !! i = Some kv1 ->
  key_values !! j = Some kv2 ->
  (i < j)%nat ->
  ascii_text (fst kv1) = true ->
  ascii_text (fst kv2) = true ->
  lower (fst kv1) = lower (fst kv2) ->
  exists e w', do_prepare json_loads proc args w = (Raise e, w').
Proof.
  intros Hc Hkvs Hi Hj Hlt Hascii1 Hascii2 Hlower. rewrite do_prepare_eq, Hc, Hkvs.
  assert (exists before between after,
             key_values = before ++ kv1 :: between ++ kv2 :: after) as (b & m & a & ->).
  { apply list_elem_of_split_length in Hi as (b & r & -> & Hb).
    rewrite lookup_app_r in Hj by lia.
    destruct (j - length b)%nat as [|k] eqn:Hk; [lia|]. cbn in Hj.
    apply list_elem_of_split_length in Hj as (m & a & -> & _).
    now exists b, m, a. }
  destruct (for_each_collision proc (output_directory c) b kv1 m kv2 a (entered c w) Hlower)
    as (e & w' & Hrun).
  exists e, w'. unfold M.bind. now rewrite Hrun.
Qed.
End Collision.



Section Writes.
Variable proc : process.
Variable out : string.
Hypothesis out_not_empty : out <> "".

Local Abbreviation o := (Fs.resolve (cwd proc) out).

End Writes.

Section PrepareWrites.
Variable json_loads : string -> outcome parsed.

End PrepareWrites.

(** ** train: what it writes *)

Lemma open_w_path cwd name files f :
  fst (Fs.open_w cwd name files) = Ok f -> f = Fs.resolve cwd name.
Proof.
  unfold Fs.open_w.
  destruct (String.eqb name ""); [discriminate|].
  destruct (Fs.walk _ _); [|discriminate].
  destruct (files !! _) as [[|content]|]; [discriminate| |];
    destruct (Fs.ends_with_slash name); try discriminate;
    cbn [fst]; now intros [= <-].
Qed.

Section TrainFrame.
Variable shuffle : nat -> list nat.
Variable pickle_dumps : bunch -> string.

(** [do_train] changes the file system at one place only, the model
    file, and only when it returns normally. *)
Theorem train_writes_only_the_model_file proc args w q :
  let r := do_train shuffle pickle_dumps proc args w in
  fs (snd r) !! q <> fs w !! q ->
  fst r = Ok tt /\
  exists c, get_configuration proc args = Ok c /\
            q = Fs.resolve (cwd proc) (model_file c).
Proof.
  cbv zeta. rewrite do_train_eq.
  destruct (get_configuration proc args) as [c|e]; [|now intros []].
  destruct (load_files _ _ _ _) as [model|e]; [|now intros []].
  destruct (fst (Fs.open_w _ _ _)) as [f|e] eqn:Hopen; [|now intros []].
  apply open_w_path in Hopen. subst f.
  unfold trained. cbn [fst snd fs]. intros Hq.
  split; [reflexivity|]. exists c. split; [reflexivity|].
  destruct (decide (q = Fs.resolve (cwd proc) (model_file c))) as [->|Hne]; [reflexivity|].
  now rewrite lookup_insert_ne in Hq.
Qed.
End TrainFrame.

(** ** test-phrase: what it reads and logs *)

Section ReadOnly.
Variable pickle_loads : string -> outcome pyobject.
Variables vectorizer transformer classifier counts tfidf : Type.
Variable CountVectorizer_fit_transform : list string -> outcome (vectorizer * counts).
Variable TfidfTransformer_fit_transform : counts -> outcome (transformer * tfidf).
Variable MultinomialNB_fit : tfidf -> list nat -> outcome classifier.
Variable CountVectorizer_transform : vectorizer -> list (option string) -> outcome counts.
Variable TfidfTransformer_transform : transformer -> counts -> outcome tfidf.
Variable MultinomialNB_predict : classifier -> tfidf -> outcome (list nat).

Local Abbreviation run :=
  (do_test_phrase pickle_loads CountVectorizer_fit_transform
     TfidfTransformer_fit_transform MultinomialNB_fit CountVectorizer_transform
     TfidfTransformer_transform MultinomialNB_predict).

Lemma report_one training_set sample predictions w :
  report training_set [sample] predictions w =
  match predictions with
  | [] => (Ok tt, w)
  | prediction :: _ =>
      match category_of training_set prediction with
      | Ok name =>
          (Ok tt, {| fs := fs w;
                     log := log w ++ [Message (message_info_103 sample name)];
                     calls := calls w |})
      | Raise e => (Raise e, w)
      end
  end.
Proof.
  destruct predictions as [|prediction rest]; [reflexivity|].
  cbn [report]. unfold M.bind, M.lift, logging_info.
  destruct (category_of training_set prediction) as [name|e]; [|reflexivity].
  now destruct rest.
Qed.



(** When [do_test_phrase] returns, it has logged the entry line, then
    for the first prediction, if there is one, the line that names the
    phrase and [target_names[prediction]], then the exit line. *)
Theorem test_phrase_logs_the_category proc args w :
  fst (run proc args w) = Ok tt ->
  exists c content training_set clf sample_tfidf predictions,
    get_configuration proc args = Ok c /\
    Fs.read_text (cwd proc) (model_file c) (fs w) = Ok content /\
    pickle_loads content = Ok training_set /\
    MultinomialNB_predict clf sample_tfidf = Ok predictions /\
    match predictions with
    | [] => log (snd (run proc args w)) = log w ++ [Enter c; Exit c]
    | prediction :: _ =>
        exists names name,
          attr_target_names training_set = Some names /\
          names !! prediction = Some name /\
          log (snd (run proc args w)) =
            log w ++ [Enter c;
                      Message ("senzing-99990103I Phrase: '" +:+ format_phrase (test_phrase c)
                               +:+ "' Category: '" +:+ name +:+ "'");
                      Exit c]
    end.
Proof.
  unfold do_test_phrase, M.bind, M.lift, M.get, common_prolog, logging_info, calling.
  destruct (get_configuration proc args) as [c|e]; [|discriminate].
  cbn [fs log calls].
  destruct (Fs.read_text _ _ _) as [content|e] eqn:Hread; [|discriminate].
  destruct (pickle_loads content) as [training_set|e] eqn:Hloads; [|discriminate].
  destruct (attr_data training_set) as [training_data|] eqn:Hdata; [|discriminate].
  cbn [getattr].
  destruct (CountVectorizer_fit_transform training_data) as [[count_vect training_counts]|e];
    [|discriminate].
  cbn [fst snd].
  destruct (TfidfTransformer_fit_transform training_counts)
    as [[tfidf_transformer training_tfidf]|e]; [|discriminate].
  cbn [fst snd].
  destruct (attr_target training_set) as [training_target|] eqn:Htarget; [|discriminate].
  cbn [getattr].
  destruct (MultinomialNB_fit training_tfidf training_target) as [clf|e]; [|discriminate].
  destruct (CountVectorizer_transform count_vect [test_phrase c]) as [sample_counts|e];
    [|discriminate].
  destruct (TfidfTransformer_transform tfidf_transformer sample_counts) as [sample_tfidf|e];
    [|discriminate].
  destruct (MultinomialNB_predict clf sample_tfidf) as [predictions|e] eqn:Hpredict;
    [|discriminate].
  rewrite report_one.
  intros Hok. exists c, content, training_set, clf, sample_tfidf, predictions.
  split; [reflexivity|]. split; [exact Hread|]. split; [exact Hloads|].
  split; [exact Hpredict|].
  destruct predictions as [|prediction rest].
  - cbn [snd log]. now rewrite <- app_assoc.
  - unfold category_of, obind, getattr in *.
    destruct (attr_target_names training_set) as [names|]; [|discriminate Hok].
    destruct (names !! prediction) as [name|] eqn:Hname; [|discriminate Hok].
    exists names, name. split; [reflexivity|]. split; [exact Hname|].
    cbn [snd log]. now rewrite <- !app_assoc.
Qed.
End ReadOnly.

(** ** The INI file *)

Section IniFile.
Variable json_loads : string -> outcome parsed.
Variable shuffle : nat -> list nat.
Variable pickle_dumps : bunch -> string.
Variable pickle_loads : string -> outcome pyobject.
Variables vectorizer transformer classifier counts tfidf : Type.
Variable CountVectorizer_fit_transform : list string -> outcome (vectorizer * counts).
Variable TfidfTransformer_fit_transform : counts -> outcome (transformer * tfidf).
Variable MultinomialNB_fit : tfidf -> list nat -> outcome classifier.
Variable CountVectorizer_transform : vectorizer -> list (option string) -> outcome counts.
Variable TfidfTransformer_transform : transformer -> counts -> outcome tfidf.
Variable MultinomialNB_predict : classifier -> tfidf -> outcome (list nat).

(** A regular file [slice-algorithm.ini] in any of the five places stops
    every subcommand with [NameError] before it logs or writes. *)
Theorem ini_file_stops_every_subcommand proc script_directory argv0_directory w p args :
  ini_file_found proc =
    match get_ini_filename (cwd proc) script_directory argv0_directory (fs w) with
    | Some _ => true
    | None => false
    end ->
  p ∈ ini_filenames (cwd proc) script_directory argv0_directory ->
  isfile (fs w) p = true ->
  do_prepare json_loads proc args w = (Raise NameError, w) /\
  do_train shuffle pickle_dumps proc args w = (Raise NameError, w) /\
  do_test_phrase pickle_loads CountVectorizer_fit_transform
    TfidfTransformer_fit_transform MultinomialNB_fit CountVectorizer_transform
    TfidfTransformer_transform MultinomialNB_predict proc args w = (Raise NameError, w).
Proof.
  intros Hfound Hp Hfile.
  assert (get_configuration proc args = Raise NameError) as Hconf.
  { unfold get_configuration. rewrite Hfound. unfold get_ini_filename.
    destruct (find _ _) eqn:Hfind; [reflexivity|].
    apply list_elem_of_In in Hp.
    now rewrite (find_none _ _ Hfind _ Hp) in Hfile. }
  unfold do_prepare, do_train, do_test_phrase, M.bind, M.lift.
  now rewrite Hconf.
Qed.
End IniFile.

(** ** Messages *)

Lemma format_from_text template args done :
  no_brace template = true ->
  format_from template InText args done = Ok (done +:+ template).
Proof.
  revert done. induction template as [|c rest IH]; intros done H.
  - now rewrite string_app_empty_r.
  - cbn [no_brace] in H. apply andb_true_iff in H as [H Hrest].
    apply andb_true_iff in H as [H1 H2]. apply negb_true_iff in H1, H2.
    cbn [format_from]. rewrite H1, H2, IH by exact Hrest.
    now rewrite string_app_assoc, append_cons, append_nil.
Qed.

Lemma no_brace_app s t : no_brace (s +:+ t) = no_brace s && no_brace t.
Proof.
  induction s as [|c s IH]; [now rewrite append_nil|].
  rewrite append_cons. cbn [no_brace]. rewrite IH. now rewrite andb_assoc.
Qed.

Lemma no_brace_uint d : no_brace (DecimalString.NilEmpty.string_of_uint d) = true.
Proof. induction d; cbn [DecimalString.NilEmpty.string_of_uint no_brace]; auto. Qed.

Lemma no_brace_int z : no_brace (str (AInt z)) = true.
Proof.
  unfold str, DecimalString.NilZero.string_of_int, DecimalString.NilZero.string_of_uint.
  destruct (Z.to_int z) as [d|d]; cbn [no_brace]; destruct d; try reflexivity;
    apply no_brace_uint.
Qed.

Ltac string_normal :=
  repeat (rewrite !string_app_assoc || rewrite !append_cons || rewrite !append_nil).

(** The scan, step by step. *)
Lemma step_text c rest args done :
  negb (Ascii.eqb c "{") && negb (Ascii.eqb c "}") = true ->
  format_from (String c rest) InText args done =
  format_from rest InText args (done +:+ String c EmptyString).
Proof.
  intros [H1 H2]%andb_true_iff. apply negb_true_iff in H1, H2.
  cbn [format_from]. now rewrite H1, H2.
Qed.

Lemma step_end args done : format_from EmptyString InText args done = Ok done.
Proof. reflexivity. Qed.

Lemma step_field_0 a args rest done :
  format_from (String "{" (String "0" (String "}" rest))) InText (a :: args) done =
  format_from rest InText (a :: args) (done +:+ str a).
Proof. reflexivity. Qed.

Lemma step_field_0_missing rest done :
  format_from (String "{" (String "0" (String "}" rest))) InText [] done = Raise IndexError.
Proof. reflexivity. Qed.

Lemma step_field_1 a b args rest done :
  format_from (String "{" (String "1" (String "}" rest))) InText (a :: b :: args) done =
  format_from rest InText (a :: b :: args) (done +:+ str b).
Proof. reflexivity. Qed.

Lemma step_padded_0 z args rest done :
  format_from (String "{" (String "0" (String ":" (String "0" (String "4" (String "d"
                 (String "}" rest))))))) InText (AInt z :: args) done =
  format_from rest InText (AInt z :: args) (done +:+ format_04d z).
Proof. reflexivity. Qed.

Ltac scan_template :=
  unfold format;
  repeat first
    [ rewrite step_field_0
    | rewrite step_field_1
    | rewrite step_padded_0
    | rewrite step_text by reflexivity
    | rewrite step_end ];
  string_normal.

Lemma format_default s :
  format "No message for index {0}." [AStr s] = Ok ("No message for index " +:+ s +:+ ".").
Proof. scan_template. reflexivity. Qed.

Lemma format_pair a b : format "{0} {1}" [AStr a; AStr b] = Ok (a +:+ " " +:+ b).
Proof. scan_template. reflexivity. Qed.

Lemma message_generic_index generic letter index :
  dict_get message_dictionary (str (AInt generic)) =
    Some ("senzing-9999{0:04d}" +:+ String letter EmptyString) ->
  negb (Ascii.eqb letter "{") && negb (Ascii.eqb letter "}") = true ->
  message generic [AInt index] =
  Ok ("senzing-9999" +:+ format_04d index +:+ String letter EmptyString).
Proof.
  intros Hget Hletter. unfold message. rewrite format_default, Hget. cbn [obind].
  change ("senzing-9999{0:04d}" +:+ String letter "")
    with (String "s" (String "e" (String "n" (String "z" (String "i" (String "n"
         (String "g" (String "-" (String "9" (String "9" (String "9" (String "9"
         (String "{" (String "0" (String ":" (String "0" (String "4" (String "d"
         (String "}" (String letter "")))))))))))))))))))).
  unfold format.
  do 12 (rewrite step_text by reflexivity).
  rewrite step_padded_0, (step_text letter) by exact Hletter.
  rewrite step_end. string_normal. reflexivity.
Qed.

Lemma message_generic_prefix generic letter index args :
  dict_get message_dictionary (str (AInt generic)) =
    Some ("senzing-9999{0:04d}" +:+ String letter EmptyString) ->
  negb (Ascii.eqb letter "{") && negb (Ascii.eqb letter "}") = true ->
  message_generic generic index args =
  match message index args with
  | Ok text =>
      Ok ("senzing-9999" +:+ format_04d index +:+ String letter EmptyString
          +:+ " " +:+ text)
  | Raise e => Raise e
  end.
Proof.
  intros Hget Hletter. unfold message_generic.
  rewrite (message_generic_index _ _ _ Hget Hletter). cbn [obind].
  destruct (message index args) as [text|e]; [|reflexivity].
  cbn [obind]. rewrite format_pair. now rewrite !string_app_assoc.
Qed.

(** The four severities put the same identifier in front of the
    message: product id, the index padded to four digits, and a letter;
    they fail exactly when the message itself fails. *)
Theorem messages_carry_their_identifier index args :
  let identified letter :=
    match message index args with
    | Ok text => Ok ("senzing-9999" +:+ format_04d index +:+ letter +:+ " " +:+ text)
    | Raise e => Raise e
    end in
  message_info index args = identified "I" /\
  message_warn index args = identified "W" /\
  message_error index args = identified "E" /\
  message_debug index args = identified "D".
Proof.
  cbv zeta. unfold message_info, message_warn, message_error, message_debug.
  repeat split.
  - now rewrite (message_generic_prefix 100 "I").
  - now rewrite (message_generic_prefix 200 "W").
  - now rewrite (message_generic_prefix 500 "E").
  - now rewrite (message_generic_prefix 900 "D").
Qed.

Lemma message_unknown index args :
  dict_get message_dictionary (str (AInt index)) = None ->
  message index args = Ok ("No message for index " +:+ str (AInt index) +:+ ".").
Proof.
  intros Hget. unfold message. rewrite format_default, Hget. cbn [obind]. unfold format.
  rewrite format_from_text; [now rewrite append_nil|].
  rewrite !no_brace_app, no_brace_int. reflexivity.
Qed.

(** A message number that is not in the dictionary gives a message that
    says so, whatever arguments come with it. *)
Theorem unknown_message_index index args :
  dict_get message_dictionary (str (AInt index)) = None ->
  message index args = Ok ("No message for index " +:+ str (AInt index) +:+ ".") /\
  message_info index args =
    Ok ("senzing-9999" +:+ format_04d index +:+ "I No message for index "
        +:+ str (AInt index) +:+ ".").
Proof.
  intros Hget. split; [now apply message_unknown|].
  unfold message_info.
  rewrite (message_generic_prefix 100 "I"), (message_unknown _ _ Hget) by reflexivity.
  now string_normal.
Qed.

Lemma message_101 text : message 101 [AStr text] = Ok ("Enter " +:+ text).
Proof.
  unfold message. rewrite format_default. cbn [obind].
  change (dict_get message_dictionary (str (AInt 101))) with (Some "Enter {0}").
  scan_template. reflexivity.
Qed.

Lemma message_102 text : message 102 [AStr text] = Ok ("Exit " +:+ text).
Proof.
  unfold message. rewrite format_default. cbn [obind].
  change (dict_get message_dictionary (str (AInt 102))) with (Some "Exit {0}").
  scan_template. reflexivity.
Qed.

Lemma message_103 sample category :
  message 103 [argument_of sample; AStr category] =
  Ok ("Phrase: '" +:+ format_phrase sample +:+ "' Category: '" +:+ category +:+ "'").
Proof.
  unfold message. rewrite format_default. cbn [obind].
  change (dict_get message_dictionary (str (AInt 103)))
    with (Some "Phrase: '{0}' Category: '{1}'").
  scan_template. now destruct sample.
Qed.

Lemma message_498 subcommand :
  message 498 [AStr subcommand] = Ok ("Bad SENZING_SUBCOMMAND: " +:+ subcommand +:+ ".").
Proof.
  unfold message. rewrite format_default. cbn [obind].
  change (dict_get message_dictionary (str (AInt 498))) with (Some "Bad SENZING_SUBCOMMAND: {0}.").
  scan_template. reflexivity.
Qed.

Lemma message_warn_498 subcommand :
  message_warn 498 [AStr subcommand] =
  Ok ("senzing-99990498W Bad SENZING_SUBCOMMAND: " +:+ subcommand +:+ ".").
Proof.
  unfold message_warn.
  rewrite (message_generic_prefix 200 "W"), message_498 by reflexivity.
  change (format_04d 498) with "0498". now string_normal.
Qed.

(** The entry, exit and result lines: the text that is passed in comes
    out as it is, braces included. *)
Theorem log_lines_keep_their_arguments :
  (forall config_json,
     message_info 101 [AStr config_json] = Ok ("senzing-99990101I Enter " +:+ config_json)) /\
  (forall config_json,
     message_info 102 [AStr config_json] = Ok ("senzing-99990102I Exit " +:+ config_json)) /\
  (forall sample category,
     message_info 103 [argument_of sample; AStr category] =
     Ok (message_info_103 sample category)).
Proof.
  unfold message_info. split; [|split]; intros.
  - rewrite (message_generic_prefix 100 "I"), message_101 by reflexivity.
    change (format_04d 101) with "0101". now string_normal.
  - rewrite (message_generic_prefix 100 "I"), message_102 by reflexivity.
    change (format_04d 102) with "0102". now string_normal.
  - rewrite (message_generic_prefix 100 "I"), message_103 by reflexivity.
    change (format_04d 103) with "0103". unfold message_info_103. now string_normal.
Qed.

(** ** The main block *)

Lemma replace_dash_cons s c t :
  replace_dash s = String c t ->
  exists c' s', s = String c' s' /\ replace_dash s' = t /\
    (c' = c \/ (c' = "-"%char /\ c = "_"%char)).
Proof.
  destruct s as [|c' s']; [discriminate|]. cbn [replace_dash].
  intros [= Hc Ht]. exists c', s'. split; [reflexivity|]. split; [exact Ht|].
  destruct (Ascii.eqb c' "-") eqn:E; [|now left].
  apply Ascii.eqb_eq in E. right. now subst.
Qed.

Lemma replace_dash_nil s : replace_dash s = "" -> s = "".
Proof. now destruct s. Qed.

Ltac undash H :=
  repeat match type of H with
  | replace_dash ?s = String ?c ?t =>
      let c' := fresh "c" in let s' := fresh "s" in
      let Hs := fresh "Hs" in let Hc := fresh "Hc" in
      apply replace_dash_cons in H as (c' & s' & Hs & H & Hc); subst s
  | replace_dash ?s = EmptyString => apply replace_dash_nil in H; subst s
  end.

Lemma replace_dash_prepare s : replace_dash s = "prepare" <-> s = "prepare".
Proof.
  split; [|now intros ->]. intros H. undash H.
  repeat match goal with
  | H : _ \/ _ |- _ => destruct H as [->|[_ H']]; [|discriminate H']
  end. reflexivity.
Qed.

Lemma replace_dash_train s : replace_dash s = "train" <-> s = "train".
Proof.
  split; [|now intros ->]. intros H. undash H.
  repeat match goal with
  | H : _ \/ _ |- _ => destruct H as [->|[_ H']]; [|discriminate H']
  end. reflexivity.
Qed.

Lemma replace_dash_test_phrase s :
  replace_dash s = "test_phrase" <-> s = "test-phrase" \/ s = "test_phrase".
Proof.
  split; [|now intros [->| ->]]. intros H. undash H.
  repeat match goal with
  | H : _ \/ _ |- _ => destruct H as [->|[-> H']]; [|first [discriminate H'|clear H']]
  end; auto.
Qed.

Section MainFacts.
Variable json_loads : string -> outcome parsed.
Variable shuffle : nat -> list nat.
Variable pickle_dumps : bunch -> string.
Variable pickle_loads : string -> outcome pyobject.
Variables vectorizer transformer classifier counts tfidf : Type.
Variable CountVectorizer_fit_transform : list string -> outcome (vectorizer * counts).
Variable TfidfTransformer_fit_transform : counts -> outcome (transformer * tfidf).
Variable MultinomialNB_fit : tfidf -> list nat -> outcome classifier.
Variable CountVectorizer_transform : vectorizer -> list (option string) -> outcome counts.
Variable TfidfTransformer_transform : transformer -> counts -> outcome tfidf.
Variable MultinomialNB_predict : classifier -> tfidf -> outcome (list nat).
Variable parse_args : list string -> parse_result.

Local Abbreviation test_phrase_function :=
  (do_test_phrase pickle_loads CountVectorizer_fit_transform
     TfidfTransformer_fit_transform MultinomialNB_fit CountVectorizer_transform
     TfidfTransformer_transform MultinomialNB_predict).

Local Abbreviation main_block :=
  (main json_loads shuffle pickle_dumps pickle_loads CountVectorizer_fit_transform
     TfidfTransformer_fit_transform MultinomialNB_fit CountVectorizer_transform
     TfidfTransformer_transform MultinomialNB_predict parse_args).

(** Started without arguments, the program takes its subcommand from
    [SENZING_SUBCOMMAND]: [prepare], [train], [test-phrase] and also
    [test_phrase] run their function with no option set; anything else
    is answered with warning 498, the help text and exit status 1. *)
Theorem subcommand_from_the_environment proc argv w s :
  (length argv <= 1)%nat ->
  environ proc !! "SENZING_SUBCOMMAND" = Some s ->
  s <> "" ->
  main_block proc argv w =
  if decide (s = "prepare") then
    finished (do_prepare json_loads proc empty_namespace w)
  else if decide (s = "train") then
    finished (do_train shuffle pickle_dumps proc empty_namespace w)
  else if decide (s = "test-phrase" \/ s = "test_phrase") then
    finished (test_phrase_function proc empty_namespace w)
  else
    {| ending_of := SystemExit 1;
       help_printed := true;
       world_of :=
         {| fs := fs w;
            log := log w ++ [Message ("senzing-99990498W Bad SENZING_SUBCOMMAND: "
                                      +:+ s +:+ ".")];
            calls := calls w |} |}.
Proof.
  intros Hargv Henv Hs. unfold main.
  assert (match argv with _ :: _ :: _ => False | _ => True end) as Hshort.
  { destruct argv as [|? [|? ?]]; simpl in *; [exact I|exact I|lia]. }
  destruct argv as [|prog [|? ?]]; try contradiction;
    rewrite Henv; apply String.eqb_neq in Hs; rewrite Hs;
    unfold dispatch, do_function;
    change (String.eqb ("do_" +:+ replace_dash s) "do_prepare")
      with (String.eqb (replace_dash s) "prepare");
    change (String.eqb ("do_" +:+ replace_dash s) "do_train")
      with (String.eqb (replace_dash s) "train");
    change (String.eqb ("do_" +:+ replace_dash s) "do_test_phrase")
      with (String.eqb (replace_dash s) "test_phrase").
  all: destruct (String.eqb (replace_dash s) "prepare") eqn:E1.
  all: try (apply String.eqb_eq in E1; apply (proj1 (replace_dash_prepare s)) in E1; subst s;
            rewrite decide_True by reflexivity; reflexivity).
  all: destruct (String.eqb (replace_dash s) "train") eqn:E2.
  all: try (apply String.eqb_eq in E2; apply (proj1 (replace_dash_train s)) in E2; subst s;
            rewrite decide_False by discriminate;
            rewrite decide_True by reflexivity; reflexivity).
  all: destruct (String.eqb (replace_dash s) "test_phrase") eqn:E3.
  all: try (apply String.eqb_eq in E3; apply (proj1 (replace_dash_test_phrase s)) in E3;
            rewrite decide_False by (destruct E3; subst s; discriminate);
            rewrite decide_False by (destruct E3; subst s; discriminate);
            rewrite decide_True by exact E3; reflexivity).
  all: apply String.eqb_neq in E1, E2, E3.
  all: rewrite replace_dash_prepare in E1; rewrite replace_dash_train in E2;
       rewrite replace_dash_test_phrase in E3.
  all: rewrite !decide_False by assumption.
  all: now rewrite message_warn_498.
Qed.
End MainFacts.

(** ** How the subcommands follow one another *)

Lemma walk_insert_leaf (files : Fs.t) (p : Fs.path) (x : Fs.node) :
  Fs.walk (<[p := x]> files) (Fs.ancestors p) = Fs.walk files (Fs.ancestors p).
Proof.
  assert (forall dirs, (forall d, d ∈ dirs -> d <> p) ->
            Fs.walk (<[p := x]> files) dirs = Fs.walk files dirs) as H.
  { induction dirs as [|d rest IH]; intros Hne; [reflexivity|].
    cbn [Fs.walk]. rewrite lookup_insert_ne.
    - rewrite IH; [reflexivity|]. intros d' Hd'. apply Hne, elem_of_cons. now right.
    - apply not_eq_sym, Hne, elem_of_cons. now left. }
  apply H. intros d Hd ->. apply ancestors_shorter in Hd. lia.
Qed.

(** What was written through [open(name, "w")] is what [open(name)] reads. *)
Lemma open_w_then_read cwd name files f stream :
  fst (Fs.open_w cwd name files) = Ok f ->
  Fs.read_text cwd name (<[f := Fs.File stream]> files) = Ok stream.
Proof.
  intros Hopen. pose proof (open_w_path _ _ _ _ Hopen) as ->.
  revert Hopen. unfold Fs.open_w, Fs.read_text.
  destruct (String.eqb name ""); [discriminate|].
  rewrite walk_insert_leaf, lookup_insert_eq.
  destruct (Fs.walk files _); [|discriminate].
  repeat case_match; try discriminate; reflexivity.
Qed.

Section TrainThenTest.
Variable shuffle : nat -> list nat.
Variable pickle_dumps : bunch -> string.

(** The bytes [do_test_phrase] hands to [pickle.load] are the bytes
    [do_train] got from [pickle.dump], when both are given the same
    model file. *)
Theorem test_phrase_reads_what_train_wrote proc train_args phrase_args w w1 c1 c2 :
  do_train shuffle pickle_dumps proc train_args w = (Ok tt, w1) ->
  get_configuration proc train_args = Ok c1 ->
  get_configuration proc phrase_args = Ok c2 ->
  model_file c2 = model_file c1 ->
  exists model,
    load_files shuffle proc (fs w) (input_directory c1) = Ok model /\
    Fs.read_text (cwd proc) (model_file c2) (fs w1) = Ok (pickle_dumps model).
Proof.
  intros Hrun Hc1 Hc2 Hsame. rewrite do_train_eq, Hc1 in Hrun.
  destruct (load_files _ _ _ _) as [model|e]; [|discriminate].
  destruct (fst (Fs.open_w _ _ _)) as [f|e] eqn:Hopen; [|discriminate].
  injection Hrun as <-. exists model. split; [reflexivity|].
  rewrite Hsame. unfold trained. cbn [fs]. now apply open_w_then_read.
Qed.
End TrainThenTest.


Section PrepareTwice.
Variable json_loads : string -> outcome parsed.

End PrepareTwice.

(** ** prepare: a key with a slash *)

Lemma well_formed_mkdir_all (files : Fs.t) (p : Fs.path) :
  well_formed files = true ->
  well_formed (Fs.mkdir_all files (Fs.ancestors p ++ [p])) = true.
Proof.
  intros Hwf. rewrite well_formed_spec in Hwf. apply well_formed_spec.
  intros q x Hq a Ha. rewrite lookup_mkdir_all in Hq. rewrite lookup_mkdir_all.
  apply elem_of_ancestors in Ha as (r & Hr & ->).
  destruct (decide (a ++ r ∈ Fs.ancestors p ++ [p])) as [Hin|Hnin].
  - apply elem_of_prefixes in Hin as (r1 & Hr1).
    rewrite decide_True; [reflexivity|].
    apply elem_of_prefixes. exists (r ++ r1). now rewrite app_assoc.
  - rewrite decide_False in Hq by exact Hnin.
    destruct (decide (a ∈ Fs.ancestors p ++ [p])); [reflexivity|].
    apply (Hwf _ _ Hq). apply elem_of_ancestors. now exists r.
Qed.

Lemma well_formed_insert_file (files : Fs.t) (p : Fs.path) (c : string) :
  well_formed files = true ->
  Fs.walk files (Fs.ancestors p) = Ok tt ->
  files !! p <> Some Fs.Dir ->
  well_formed (<[p := Fs.File c]> files) = true.
Proof.
  intros Hwf Hwalk Hp. rewrite well_formed_spec in Hwf. apply well_formed_spec.
  intros q x Hq a Ha.
  assert (files !! a = Some Fs.Dir) as Hdir.
  { destruct (decide (p = q)) as [<-|Hne].
    - now apply (walk_ok_dirs _ _ Hwalk).
    - rewrite lookup_insert_ne in Hq by exact Hne. now apply (Hwf _ _ Hq). }
  rewrite lookup_insert_ne; [exact Hdir|]. intros <-. contradiction.
Qed.

Lemma well_formed_open_w (cwd : Fs.path) (name : string) (files : Fs.t) :
  well_formed files = true ->
  well_formed (snd (Fs.open_w cwd name files)) = true.
Proof.
  intros Hwf. unfold Fs.open_w.
  destruct (String.eqb name ""); [exact Hwf|].
  destruct (Fs.walk files _) as [[]|e] eqn:Hwalk; [|exact Hwf].
  destruct (files !! Fs.resolve cwd name) as [[|content]|] eqn:Hp; [exact Hwf| |];
    destruct (Fs.ends_with_slash name); try exact Hwf; cbn [snd];
    apply well_formed_insert_file; try assumption; unfold Fs.path in *; congruence.
Qed.

Lemma well_formed_fwrite (f : Fs.path) (text : string) (files : Fs.t) :
  well_formed files = true ->
  well_formed (snd (Fs.fwrite f text files)) = true.
Proof.
  intros Hwf. unfold Fs.fwrite.
  destruct (files !! f) as [[|content]|] eqn:Hf; try exact Hwf. cbn [snd].
  apply well_formed_insert_file; [exact Hwf| |congruence].
  apply walk_dirs. intros d Hd. rewrite well_formed_spec in Hwf. now apply (Hwf _ _ Hf).
Qed.

Lemma well_formed_makedirs (cwd : Fs.path) (name : string) (files : Fs.t) :
  well_formed files = true ->
  well_formed (snd (Fs.makedirs cwd name files)) = true.
Proof.
  intros Hwf. unfold Fs.makedirs.
  destruct (Fs.exists_ files _); [exact Hwf|].
  destruct (existsb _ _); [exact Hwf|]. now apply well_formed_mkdir_all.
Qed.

Lemma well_formed_for_each_fwrite f (values : list value) w :
  well_formed (fs w) = true ->
  well_formed (fs (snd (M.for_each values
    (fun v => on_fs (Fs.fwrite f (format_value v +:+ newline))) w))) = true.
Proof.
  revert w. induction values as [|v rest IH]; intros w H; [exact H|].
  rewrite for_each_cons. unfold on_fs at 1.
  pose proof (well_formed_fwrite f (format_value v +:+ newline) (fs w) H) as H1.
  destruct (Fs.fwrite _ _ _) as [[[]|e] files1]; cbn [snd] in *.
  - now apply IH.
  - exact H1.
Qed.

(** Writing a key, whatever the key is, leaves every entry in a directory. *)
Lemma well_formed_write_key proc out kv w :
  well_formed (fs w) = true ->
  well_formed (fs (snd (write_key proc out kv w))) = true.
Proof.
  intros H. unfold write_key, M.bind, on_fs at 1.
  pose proof (well_formed_makedirs (cwd proc) (directory_of out (fst kv)) (fs w) H) as H1.
  destruct (Fs.makedirs _ _ _) as [[[]|e] files1]; cbn [snd] in *; [|exact H1].
  unfold on_fs at 1. cbn [fs].
  pose proof (well_formed_open_w (cwd proc) (filename_of out (fst kv)) files1 H1) as H2.
  destruct (Fs.open_w _ _ _) as [[f|e] files2]; cbn [snd] in *; [|exact H2].
  now apply well_formed_for_each_fwrite.
Qed.

Lemma well_formed_for_each_write_key proc out kvs w :
  well_formed (fs w) = true ->
  well_formed (fs (snd (M.for_each kvs (write_key proc out) w))) = true.
Proof.
  revert w. induction kvs as [|kv rest IH]; intros w H; [exact H|].
  rewrite for_each_cons.
  pose proof (well_formed_write_key proc out kv w H) as H1.
  destruct (write_key proc out kv w) as [[[]|e] w1]; cbn [snd] in *.
  - now apply IH.
  - exact H1.
Qed.

Lemma lower_app s t : lower (s +:+ t) = lower s +:+ lower t.
Proof.
  induction s as [|c s IH]; [now rewrite !append_nil|].
  cbn [lower]. rewrite !append_cons. cbn [lower]. now rewrite IH.
Qed.

Lemma walk_app (files : Fs.t) (xs ys : list Fs.path) :
  Fs.walk files (xs ++ ys) =
  match Fs.walk files xs with
  | Ok _ => Fs.walk files ys
  | Raise e => Raise e
  end.
Proof.
  induction xs as [|x xs IH]; [reflexivity|]. cbn [app Fs.walk].
  destruct (files !! x) as [[|c]|]; [exact IH|reflexivity|reflexivity].
Qed.

Lemma walk_missing (files : Fs.t) (x : Fs.path) :
  files !! x = None -> Fs.walk files [x] = Raise FileNotFoundError.
Proof. intros H. cbn [Fs.walk]. now rewrite H. Qed.

(** Resolving [a/b/c] for plain names [b] and [c]. *)
Lemma resolve_two_entries cwd a b c :
  a <> "" -> plain_key b = true -> plain_key c = true ->
  Fs.resolve cwd (a +:+ "/" +:+ b +:+ "/" +:+ c) = (Fs.resolve cwd a ++ [b]) ++ [c].
Proof.
  intros Ha Hb Hc.
  replace (a +:+ "/" +:+ b +:+ "/" +:+ c) with ((a +:+ "/" +:+ b) +:+ "/" +:+ c)
    by now rewrite !string_app_assoc.
  rewrite resolve_entry, resolve_entry; try assumption; [reflexivity|].
  destruct a; [congruence|]. rewrite append_cons. discriminate.
Qed.

Section SlashKey.
Variable proc : process.
Variable out : string.
Hypothesis out_not_empty : out <> "".

Lemma write_key_with_slash a b values w :
  plain_key a = true -> plain_key b = true ->
  well_formed (fs w) = true ->
  exists e w', write_key proc out (a +:+ "/" +:+ b, values) w = (Raise e, w').
Proof.
  intros Ha Hb Hwf.
  pose proof (plain_key_lower _ Ha) as Hla. pose proof (plain_key_lower _ Hb) as Hlb.
  set (o := Fs.resolve (cwd proc) out).
  set (d := (o ++ [lower a]) ++ [lower b]).
  assert (Fs.resolve (cwd proc) (directory_of out (a +:+ "/" +:+ b)) = d) as Hd.
  { unfold directory_of. rewrite !lower_app.
    change (lower "/") with "/". now apply resolve_two_entries. }
  assert (Fs.resolve (cwd proc) (filename_of out (a +:+ "/" +:+ b)) =
          (d ++ [a]) ++ [b +:+ ".txt"]) as Hf.
  { unfold filename_of.
    replace (directory_of out (a +:+ "/" +:+ b) +:+ "/" +:+ (a +:+ "/" +:+ b) +:+ ".txt")
      with (directory_of out (a +:+ "/" +:+ b) +:+ "/" +:+ a +:+ "/" +:+ (b +:+ ".txt"))
      by now rewrite !string_app_assoc.
    rewrite resolve_two_entries, Hd; [reflexivity| |exact Ha|].
    - apply directory_of_not_empty.
    - now apply plain_key_txt, plain_key_characters. }
  unfold write_key, M.bind, on_fs at 1, Fs.makedirs. cbn [fst snd]. rewrite Hd.
  destruct (Fs.exists_ (fs w) d) eqn:Hex; [now eexists _, _|].
  destruct (existsb (Fs.is_file (fs w)) (Fs.ancestors d)) eqn:Hno; [now eexists _, _|].
  unfold on_fs at 1, Fs.open_w. cbn [fs]. rewrite Hf, filename_of_not_empty.
  rewrite (ancestors_snoc (d ++ [a])), (ancestors_snoc d a), walk_app, walk_dirs.
  2:{ intros x Hx. now rewrite lookup_mkdir_all, decide_True. }
  rewrite walk_missing; [now eexists _, _|].
  rewrite lookup_mkdir_all, decide_False.
  - apply well_formed_below; [exact Hwf|]. now apply exists_false.
  - intros Hin. now apply (prefix_not_longer d (d ++ [a]) a Hin).
Qed.
End SlashKey.

Section PrepareSlash.
Variable json_loads : string -> outcome parsed.

(** A key of two plain names with a slash between them, like
    [address/street]: [do_prepare] makes the directory for it but cannot
    open the file in it, so it cannot return normally. *)
Theorem key_with_a_slash_stops_prepare proc args w c key_values (i : nat) a b values :
  get_configuration proc args = Ok c ->
  build_key_values
    (get_generator_from_jsonlines json_loads (jsonlines_file c) 10000 proc (fs w))
    = Ok key_values ->
  well_formed (fs w) = true ->
  key_values !! i = Some (a +:+ "/" +:+ b, values) ->
  plain_key a = true ->
  plain_key b = true ->
  exists e w', do_prepare json_loads proc args w = (Raise e, w').
Proof.
  intros Hc Hkvs Hwf Hi Ha Hb. rewrite do_prepare_eq, Hc, Hkvs.
  apply list_elem_of_split_length in Hi as (before & after & -> & _).
  unfold M.bind. rewrite for_each_app.
  pose proof (well_formed_for_each_write_key proc (output_directory c) before
                (entered c w) Hwf) as Hwf0.
  destruct (M.for_each before _ _) as [[[]|e] w0]; [|now exists e, w0].
  cbn [snd] in Hwf0. rewrite for_each_cons.
  destruct (write_key_with_slash proc (output_directory c)
              (output_directory_not_empty _ _ _ Hc) a b values w0 Ha Hb Hwf0)
    as (e & w' & ->).
  now exists e, w'.
Qed.
End PrepareSlash.

(** ** The theorems at the concrete inputs *)

(** C3, run: in [/home], with [records.jsonl] holding the two records and
    no [out] directory yet. *)
Lemma prepare_scenario_in_home :
  exists w',
    do_prepare Example.json_loads Example.proc Example.prepare_args
      (Example.start Example.fresh) = (Ok tt, w') /\
    fs w' !! ["home"; "out"; "color"; "color.txt"] =
      Some (Fs.File ("red" +:+ newline +:+ "blue" +:+ newline)) /\
    fs w' !! ["home"; "out"; "size"; "size.txt"] =
      Some (Fs.File ("M" +:+ newline +:+ "L" +:+ newline)).
Proof.
  apply (prepare_scenario Example.json_loads Example.proc Example.prepare_args
           (Example.start Example.fresh)
           (copy_args Example.prepare_args configuration_defaults)
           "records.jsonl" (Example.line1 +:+ Example.line2)
           Example.line1 Example.line2); reflexivity.
Defined.



(** C10, run: an input of 10001 lines, the last of which is no JSON, is
    treated like its first 10000 lines. *)
Lemma line_10001_is_ignored :
  let w := Example.start Example.long_input in
  let w' := {| fs := <[["home"; "records.jsonl"] := Fs.File Example.full]> (fs w);
               log := log w; calls := calls w |} in
  fst (do_prepare Example.json_loads Example.proc Example.prepare_args w) =
  fst (do_prepare Example.json_loads Example.proc Example.prepare_args w') /\
  log (snd (do_prepare Example.json_loads Example.proc Example.prepare_args w)) =
  log (snd (do_prepare Example.json_loads Example.proc Example.prepare_args w')) /\
  forall q, q <> ["home"; "records.jsonl"] ->
    fs (snd (do_prepare Example.json_loads Example.proc Example.prepare_args w)) !! q =
    fs (snd (do_prepare Example.json_loads Example.proc Example.prepare_args w')) !! q.
Proof.
  apply (proj2 (proj2 (proj2 (jsonlines_generator_is_capped Example.json_loads)))
           Example.proc Example.prepare_args (Example.start Example.long_input)
           ["home"; "records.jsonl"] Example.overfull Example.full).
  - reflexivity.
  - vm_compute. reflexivity.
  - vm_compute. reflexivity.
  - vm_compute. reflexivity.
Defined.

(** C1 as stated fails: [train] on a directory with one category and one
    document returns after two calls, [load_files] and [pickle.dump], and
    the object it pickles is the data set with the raw document; none of
    its calls fits anything.  [test-phrase] on the resulting model file
    makes the three fitting calls itself. *)
Lemma train_artifact_holds_documents_not_parameters :
  do_train Example.shuffle Example.pickle_dumps Example.proc Example.train_args
    (Example.start Example.one_category)
    = (Ok tt, Example.trained_world) /\
  calls Example.trained_world =
    [load_files_call "corpus"; pickle_dump_call Example.color_bunch "model.pickle"] /\
  existsb is_fit (calls Example.trained_world) = false /\
  fst (Example.test "zebra") = Ok tt /\
  List.filter is_fit (calls (snd (Example.test "zebra"))) =
    [CountVectorizer_fit_transform_call (data Example.color_bunch);
     TfidfTransformer_fit_transform_call;
     MultinomialNB_fit_call (target Example.color_bunch)].
Proof. vm_compute. repeat split. Qed.


(** C1, run: [test-phrase --test-phrase zebra] after that [train]. *)
Lemma test_phrase_fits_on_every_call :
  exists c content training_set training_data training_target,
    get_configuration Example.proc (Example.phrase_args "zebra") = Ok c /\
    Fs.read_text (cwd Example.proc) (model_file c) (fs Example.trained_world) = Ok content /\
    Example.pickle_loads content = Ok training_set /\
    attr_data training_set = Some training_data /\
    attr_target training_set = Some training_target /\
    calls (snd (Example.test "zebra")) =
      calls Example.trained_world ++ test_phrase_calls c training_data training_target /\
    List.filter is_fit (test_phrase_calls c training_data training_target) =
      [CountVectorizer_fit_transform_call training_data;
       TfidfTransformer_fit_transform_call;
       MultinomialNB_fit_call training_target].
Proof.
  apply (proj2 train_pickles_the_data_set_and_test_phrase_fits
           Example.pickle_loads unit unit unit unit unit
           Example.fit_transform_counts Example.fit_transform_tfidf
           Example.fit_classifier Example.transform_counts Example.transform_tfidf
           Example.predict Example.proc (Example.phrase_args "zebra")
           Example.trained_world).
  reflexivity.
Defined.

(** C2 as stated fails: with a single category, and also with a second
    category that has no document, [train] returns normally and the model
    file is there. *)
Lemma train_succeeds_with_one_category :
  load_files Example.shuffle Example.proc Example.one_category "corpus"
    = Ok Example.color_bunch /\
  target_names Example.color_bunch = ["color"] /\
  fst (do_train Example.shuffle Example.pickle_dumps Example.proc Example.train_args
         (Example.start Example.one_category)) = Ok tt /\
  Fs.exists_ (fs Example.trained_world) ["home"; "model.pickle"] = true /\
  (exists b, load_files Example.shuffle Example.proc Example.empty_category "corpus" = Ok b
     /\ target_names b = ["color"; "size"] /\ target b = [0%nat]) /\
  fst (do_train Example.shuffle Example.pickle_dumps Example.proc Example.train_args
         (Example.start Example.empty_category)) = Ok tt.
Proof.
  vm_compute. repeat split. eexists. repeat split.
Qed.

(** C2, run on the directory with the single category. *)
Lemma train_on_one_category :
  do_train Example.shuffle Example.pickle_dumps Example.proc Example.train_args
    (Example.start Example.one_category)
    = (Ok tt, trained (copy_args Example.train_args configuration_defaults)
                Example.color_bunch (Example.pickle_dumps Example.color_bunch)
                ["home"; "model.pickle"] (Example.start Example.one_category)) /\
  fs (trained (copy_args Example.train_args configuration_defaults)
        Example.color_bunch (Example.pickle_dumps Example.color_bunch)
        ["home"; "model.pickle"] (Example.start Example.one_category))
    !! ["home"; "model.pickle"]
    = Some (Fs.File (Example.pickle_dumps Example.color_bunch)) /\
  length (target Example.color_bunch) = length (data Example.color_bunch).
Proof.
  apply (train_accepts_any_categories Example.shuffle Example.pickle_dumps
           Example.proc Example.train_args (Example.start Example.one_category));
    reflexivity.
Defined.

(** C5, run: [test-phrase --test-phrase ""] after that [train]. *)
Lemma empty_phrase_example :
  (forall c, get_configuration Example.proc (Example.phrase_args "") = Ok c ->
             test_phrase c = None) /\
  (exists e', fst (Example.test "") = Raise e') /\
  (forall text, Message text ∈ log (snd (Example.test "")) ->
                Message text ∈ log Example.trained_world).
Proof.
  apply (empty_phrase_raises Example.pickle_loads unit unit unit unit unit
           Example.fit_transform_counts Example.fit_transform_tfidf
           Example.fit_classifier Example.transform_counts Example.transform_tfidf
           Example.predict Example.proc (Example.phrase_args "") Example.trained_world
           AttributeError); [reflexivity|reflexivity|].
  intros []. reflexivity.
Defined.

(** The grouping, run on the two records of the scenario. *)
Lemma key_values_of_the_scenario :
  NoDup (map fst [("color", [VStr "red"; VStr "blue"]); ("size", [VStr "M"; VStr "L"])]) /\
  forall key,
    find_key key [("color", [VStr "red"; VStr "blue"]); ("size", [VStr "M"; VStr "L"])] =
    match values_of key (pairs_of [Example.record1; Example.record2]) with
    | [] => None
    | values => Some values
    end.
Proof.
  apply (key_values_group_in_encounter_order [Example.record1; Example.record2]).
  reflexivity.
Defined.

(** A second line that is no JSON: nothing is written. *)
Lemma prepare_stops_at_line_2 :
  exists e,
    (e = AttributeError \/
     exists (j : nat) l,
       Fs.lines (Example.line1 +:+ "not json" +:+ newline) !! j = Some l /\
       Example.json_loads l = Raise e) /\
    do_prepare Example.json_loads Example.proc Example.prepare_args
      (Example.start Example.broken_input)
    = (Raise e, entered (copy_args Example.prepare_args configuration_defaults)
                  (Example.start Example.broken_input)) /\
    fs (snd (do_prepare Example.json_loads Example.proc Example.prepare_args
               (Example.start Example.broken_input)))
    = fs (Example.start Example.broken_input).
Proof.
  apply (prepare_with_a_bad_line_writes_nothing Example.json_loads Example.proc
           Example.prepare_args (Example.start Example.broken_input)
           (copy_args Example.prepare_args configuration_defaults)
           "records.jsonl" (Example.line1 +:+ "not json" +:+ newline) 1%nat
           ("not json" +:+ newline)).
  - reflexivity.
  - reflexivity.
  - reflexivity.
  - reflexivity.
  - reflexivity.
  - reflexivity.
  - reflexivity.
  - left. exists JSONDecodeError. reflexivity.
Defined.

(** [prepare] with no option and no environment variable. *)
Lemma prepare_without_a_file_name :
  do_prepare Example.json_loads Example.proc Example.no_args (Example.start Example.fresh)
  = (Raise TypeError, entered configuration_defaults (Example.start Example.fresh)) /\
  fs (snd (do_prepare Example.json_loads Example.proc Example.no_args
             (Example.start Example.fresh)))
  = fs (Example.start Example.fresh).
Proof.
  apply (prepare_needs_a_readable_file Example.json_loads Example.proc Example.no_args
           (Example.start Example.fresh) configuration_defaults TypeError);
    reflexivity.
Defined.

(** [train] on the one-category corpus: what changes is [model.pickle]. *)
Lemma train_writes_model_pickle :
  fst (do_train Example.shuffle Example.pickle_dumps Example.proc Example.train_args
         (Example.start Example.one_category)) = Ok tt /\
  exists c, get_configuration Example.proc Example.train_args = Ok c /\
            ["home"; "model.pickle"] = Fs.resolve (cwd Example.proc) (model_file c).
Proof.
  apply (train_writes_only_the_model_file Example.shuffle Example.pickle_dumps
           Example.proc Example.train_args (Example.start Example.one_category)
           ["home"; "model.pickle"]).
  vm_compute. discriminate.
Defined.

(** [test-phrase --test-phrase zebra] after that [train]. *)
Lemma test_phrase_zebra_is_color :
  exists c content training_set clf sample_tfidf predictions,
    get_configuration Example.proc (Example.phrase_args "zebra") = Ok c /\
    Fs.read_text (cwd Example.proc) (model_file c) (fs Example.trained_world)
      = Ok content /\
    Example.pickle_loads content = Ok training_set /\
    Example.predict clf sample_tfidf = Ok predictions /\
    match predictions with
    | [] => log (snd (Example.test "zebra")) = log Example.trained_world ++ [Enter c; Exit c]
    | prediction :: _ =>
        exists names name,
          attr_target_names training_set = Some names /\
          names !! prediction = Some name /\
          log (snd (Example.test "zebra")) =
            log Example.trained_world ++
              [Enter c;
               Message ("senzing-99990103I Phrase: '" +:+ format_phrase (test_phrase c)
                        +:+ "' Category: '" +:+ name +:+ "'");
               Exit c]
    end.
Proof.
  apply (test_phrase_logs_the_category Example.pickle_loads _ _ _ _ _
           Example.fit_transform_counts Example.fit_transform_tfidf
           Example.fit_classifier Example.transform_counts Example.transform_tfidf
           Example.predict Example.proc (Example.phrase_args "zebra")
           Example.trained_world).
  vm_compute. reflexivity.
Defined.

(** A [slice-algorithm.ini] in the working directory. *)
Lemma ini_file_in_home :
  do_prepare Example.json_loads Example.proc_with_ini_file Example.no_args
    (Example.start Example.with_ini_file)
  = (Raise NameError, Example.start Example.with_ini_file) /\
  do_train Example.shuffle Example.pickle_dumps Example.proc_with_ini_file Example.no_args
    (Example.start Example.with_ini_file)
  = (Raise NameError, Example.start Example.with_ini_file) /\
  do_test_phrase Example.pickle_loads Example.fit_transform_counts
    Example.fit_transform_tfidf Example.fit_classifier Example.transform_counts
    Example.transform_tfidf Example.predict Example.proc_with_ini_file Example.no_args
    (Example.start Example.with_ini_file)
  = (Raise NameError, Example.start Example.with_ini_file).
Proof.
  apply (ini_file_stops_every_subcommand Example.json_loads Example.shuffle
           Example.pickle_dumps Example.pickle_loads _ _ _ _ _
           Example.fit_transform_counts Example.fit_transform_tfidf
           Example.fit_classifier Example.transform_counts Example.transform_tfidf
           Example.predict Example.proc_with_ini_file
           ["opt"; "senzing"] ["opt"; "senzing"]
           (Example.start Example.with_ini_file)
           ["home"; "slice-algorithm.ini"] Example.no_args).
  - vm_compute. reflexivity.
  - apply elem_of_cons. left. reflexivity.
  - vm_compute. reflexivity.
Defined.

(** The scenario: the input file is still there afterwards. *)
Lemma prepare_keeps_the_input_file :
  fs (snd (do_prepare Example.json_loads Example.proc Example.prepare_args
             (Example.start Example.fresh))) !! ["home"; "records.jsonl"]
  = Some (Fs.File (Example.line1 +:+ Example.line2)).
Proof.
  apply (prepare_keeps_what_exists Example.json_loads Example.proc Example.prepare_args
           (Example.start Example.fresh)).
  - vm_compute. reflexivity.
  - intros c key_values [= <-] Hkvs. vm_compute in Hkvs. injection Hkvs as <-.
    repeat constructor.
  - vm_compute. reflexivity.
Defined.

(** One record with the keys [Color] and [color]. *)
Lemma color_and_Color_collide :
  exists e w',
    do_prepare Example.json_loads Example.proc Example.prepare_args
      (Example.start Example.mixed_case) = (Raise e, w').
Proof.
  apply (keys_that_differ_in_case_stop_prepare Example.json_loads Example.proc
           Example.prepare_args (Example.start Example.mixed_case)
           (copy_args Example.prepare_args configuration_defaults)
           [("Color", [VStr "red"]); ("color", [VStr "blue"])] 0%nat 1%nat
           ("Color", [VStr "red"]) ("color", [VStr "blue"])).
  - reflexivity.
  - vm_compute. reflexivity.
  - reflexivity.
  - reflexivity.
  - lia.
  - reflexivity.
  - reflexivity.
  - reflexivity.
Defined.

(** Message 198, which [validate_configuration] names, is not in the
    dictionary. *)
Lemma unknown_message_198 :
  message 198 [] = Ok ("No message for index " +:+ str (AInt 198) +:+ ".") /\
  message_info 198 [] =
    Ok ("senzing-9999" +:+ format_04d 198 +:+ "I No message for index "
        +:+ str (AInt 198) +:+ ".").
Proof. apply (unknown_message_index 198 []). reflexivity. Defined.

(** [SENZING_SUBCOMMAND=status] and no command-line argument. *)
Lemma subcommand_status_is_refused :
  main Example.json_loads Example.shuffle Example.pickle_dumps Example.pickle_loads
    Example.fit_transform_counts Example.fit_transform_tfidf Example.fit_classifier
    Example.transform_counts Example.transform_tfidf Example.predict
    Example.parse_args (Example.proc_with_subcommand "status")
    ["senzing-mapping-assistant.py"] (Example.start Example.fresh)
  = {| ending_of := SystemExit 1;
       help_printed := true;
       world_of :=
         {| fs := Example.fresh;
            log := [Message "senzing-99990498W Bad SENZING_SUBCOMMAND: status."];
            calls := [] |} |}.
Proof.
  rewrite (subcommand_from_the_environment Example.json_loads Example.shuffle
             Example.pickle_dumps Example.pickle_loads _ _ _ _ _
             Example.fit_transform_counts Example.fit_transform_tfidf
             Example.fit_classifier Example.transform_counts Example.transform_tfidf
             Example.predict Example.parse_args
             (Example.proc_with_subcommand "status")
             ["senzing-mapping-assistant.py"] (Example.start Example.fresh) "status").
  - reflexivity.
  - simpl. lia.
  - reflexivity.
  - discriminate.
Defined.


(** [train] on the one-category corpus, then [test-phrase]. *)
Lemma test_phrase_reads_the_color_model :
  exists model,
    load_files Example.shuffle Example.proc (fs (Example.start Example.one_category))
      (input_directory (copy_args Example.train_args configuration_defaults)) = Ok model /\
    Fs.read_text (cwd Example.proc)
      (model_file (copy_args (Example.phrase_args "zebra") configuration_defaults))
      (fs Example.trained_world) = Ok (Example.pickle_dumps model).
Proof.
  apply (test_phrase_reads_what_train_wrote Example.shuffle Example.pickle_dumps
           Example.proc Example.train_args (Example.phrase_args "zebra")
           (Example.start Example.one_category) Example.trained_world).
  - vm_compute. reflexivity.
  - reflexivity.
  - reflexivity.
  - reflexivity.
Defined.


(** One record with the key [address/street]. *)
Lemma address_street_stops_prepare :
  exists e w',
    do_prepare Example.json_loads Example.proc Example.prepare_args
      (Example.start Example.slash_key) = (Raise e, w').
Proof.
  apply (key_with_a_slash_stops_prepare Example.json_loads Example.proc
           Example.prepare_args (Example.start Example.slash_key)
           (copy_args Example.prepare_args configuration_defaults)
           [("address/street", [VStr "Main"])] 0%nat "address" "street" [VStr "Main"]).
  - reflexivity.
  - vm_compute. reflexivity.
  - vm_compute. reflexivity.
  - reflexivity.
  - reflexivity.
  - reflexivity.
Defined.
